(** * Bank management system: the account repository and the transfer service

    A shallow embedding of [database.py] (class [DatabaseManager]) and
    [transfer.py] (class [TransferManager]), and the properties of the
    transfer service stated over it.

    The hosted table behind the Supabase client is an external collaborator.
    It is modelled by the call contract the repository relies on: one table
    [users] with columns [id, name, email, balance], equality-filtered
    select, update and delete, insert, and calls that either answer with a
    list of rows or raise.  The console front end ([main.py]) only prints
    what the service returns and is left out, as is the printing done by
    the [except] branches. *)

From stdpp Require Import gmap strings list fin_maps pretty.

Open Scope string_scope.
Open Scope list_scope.
Open Scope Z_scope.

(** ** State-passing computations

    Every method reads and writes the remote table (and, in the transfer
    service, the in-memory ledger); a method is a function from the state
    before the call to its result and the state after it. *)

Definition M (S A : Type) : Type := S → A * S.

Definition ret {S A} (a : A) : M S A := λ s, (a, s).

Definition bind {S A B} (c : M S A) (k : A → M S B) : M S B :=
  λ s, let (a, s') := c s in k a s'.

Notation "'let*' x ':=' c 'in' k" := (bind c (λ x, k))
  (at level 10, x name, c at level 100, k at level 200).

(** ** The record store

    The table is a finite map from the [id] column, its primary key, to the
    other columns: identifiers are assigned by the store, never change and
    are never shared by two rows.  Columns hold values of their declared
    type ([id] and [balance] integers, [name] and [email] strings). *)

Module Store.

(** The columns of a row other than its primary key.  [balance] is [None]
    when the key ["balance"] is missing from the dictionary the client
    hands back, the case [user.get("balance", 0)] provides for. *)
Record row := Row {
  name : string;
  email : string;
  balance : option Z
}.

(** A row as the client returns it: the [id] column and the others. *)
Definition user : Type := Z * row.

(** [.eq(column, value)] *)
Inductive filter_eq :=
| EqId (v : Z)
| EqName (v : string)
| EqEmail (v : string).

(** The requests built on [client.table("users")]. *)
Inductive query :=
| Select (conds : list filter_eq)
| Update (new_balance : Z) (conds : list filter_eq)
| Insert (nm em : string) (bal : Z)
| Delete (conds : list filter_eq).

Definition holds (c : filter_eq) (u : user) : Prop :=
  match c with
  | EqId v => u.1 = v
  | EqName v => name u.2 = v
  | EqEmail v => email u.2 = v
  end.

Definition satisfies (conds : list filter_eq) (u : user) : Prop :=
  Forall (λ c, holds c u) conds.

#[global] Instance holds_dec c u : Decision (holds c u).
Proof. destruct c; simpl; apply _. Defined.

#[global] Instance satisfies_dec conds u : Decision (satisfies conds u).
Proof. unfold satisfies; apply _. Defined.

Definition set_balance (b : Z) (r : row) : row :=
  {| name := name r; email := email r; balance := Some b |}.

(** Modelled from the spec: the hosted table is not part of the repository
    and assigns the identifier of an inserted row itself.  Here it is one
    above the largest identifier in the table, 1 for an empty table. *)
Definition next_id (t : gmap Z row) : Z :=
  1 + foldr Z.max 0 (map_to_list t).*1.

(** Modelled from the spec: the hosted table and its client are not part of
    the repository; the store supports equality-filtered select, filtered
    update, filtered delete and insert against one table, and a call returns
    the sequence of matched or affected rows.  [run q t] is the rows a
    request answers with and the table after it: update and delete answer
    with the rows they affected, insert with the new row. *)
Definition run (q : query) (t : gmap Z row) : list user * gmap Z row :=
  match q with
  | Select conds => (map_to_list (filter (satisfies conds) t), t)
  | Update b conds =>
      let hit := set_balance b <$> filter (satisfies conds) t in
      (map_to_list hit, hit ∪ t)
  | Insert nm em b =>
      let r := {| name := nm; email := em; balance := Some b |} in
      let k := next_id t in
      ([(k, r)], <[k := r]> t)
  | Delete conds =>
      (map_to_list (filter (satisfies conds) t),
       filter (λ u, ¬ satisfies conds u) t)
  end.

(** The remote side: the table; the outcome of the calls to come, in
    order ([Some e] for a call that raises an exception printing as [e],
    and every call past the end of the list is answered); and the
    requests issued so far. *)
Record world := World {
  table : gmap Z row;
  faults : list (option string);
  log : list query
}.

Inductive response :=
| Data (rows : list user)
| Raise (e : string).

(** Modelled from the spec: [.execute()] either returns rows or raises a
    fault.  A call that raises leaves the table as it is; every call is
    logged and uses up one entry of [faults]. *)
Definition execute (q : query) : M world response := λ w,
  let fs := tail (faults w) in
  let lg := log w ++ [q] in
  match head (faults w) with
  | Some (Some e) => (Raise e, {| table := table w; faults := fs; log := lg |})
  | _ =>
      let (rows, t) := run q (table w) in
      (Data rows, {| table := t; faults := fs; log := lg |})
  end.

(** [user.get("balance", default)] *)
Definition get_balance (u : user) (dflt : Z) : Z := default dflt (balance u.2).

(** [user.get("name")] and [user.get("id")] *)
Definition get_name (u : user) : string := name u.2.
Definition get_id (u : user) : Z := u.1.

End Store.

Import Store.

(** ** [database.py]: the account repository *)

Module DatabaseManager.

(** [response.data[0]] when [response.data and len(response.data) > 0],
    [None] otherwise, and [None] when the call raised. *)
Definition first_row (r : response) : option user :=
  match r with
  | Data (u :: _) => Some u
  | Data [] => None
  | Raise _ => None
  end.

(** The lookups catch whatever the store raises and return [None]. *)
Definition get_user_by_id_and_name (user_id : Z) (nm : string)
  : M world (option user) :=
  let* r := execute (Select [EqId user_id; EqName nm]) in
  ret (first_row r).

Definition get_user_by_id (user_id : Z) : M world (option user) :=
  let* r := execute (Select [EqId user_id]) in
  ret (first_row r).

Definition get_user_balance (user_id : Z) (nm : string)
  : M world (option Z) :=
  let* user := get_user_by_id_and_name user_id nm in
  match user with
  | Some u => ret (Some (get_balance u 0))
  | None => ret None
  end.

(** [True] when the store returned at least one affected row. *)
Definition update_balance (user_id : Z) (new_balance : Z) : M world bool :=
  let* r := execute (Update new_balance [EqId user_id]) in
  match r with
  | Data (_ :: _) => ret true
  | Data [] => ret false
  | Raise _ => ret false
  end.

Definition get_all_users : M world (list user) :=
  let* r := execute (Select []) in
  match r with
  | Data rows => ret rows
  | Raise _ => ret []
  end.

(** The email pre-check and the insert run in one [try]; either of them
    raising ends in the [except] branch. *)
Definition create_account (nm em : string) (initial_balance : Z)
  : M world (bool * string * option Z) :=
  let* existing := execute (Select [EqEmail em]) in
  match existing with
  | Raise e => ret (false, "Error creating account: " +:+ e, None)
  | Data (_ :: _) => ret (false, "Email " +:+ em +:+ " already exists", None)
  | Data [] =>
      let* r := execute (Insert nm em initial_balance) in
      match r with
      | Raise e => ret (false, "Error creating account: " +:+ e, None)
      | Data (u :: _) =>
          let user_id := get_id u in
          ret (true,
               "Account created successfully for " +:+ nm +:+ " with ID "
                 +:+ pretty user_id,
               Some user_id)
      | Data [] => ret (false, "Failed to create account", None)
      end
  end.

(** The response of the delete is not looked at. *)
Definition delete_account (user_id : Z) : M world (bool * string) :=
  let* user := get_user_by_id user_id in
  match user with
  | None => ret (false, "User with ID " +:+ pretty user_id +:+ " not found")
  | Some u =>
      let* r := execute (Delete [EqId user_id]) in
      match r with
      | Raise e => ret (false, "Error deleting account: " +:+ e)
      | Data _ =>
          ret (true,
               "Account for " +:+ get_name u +:+ " (ID: " +:+ pretty user_id
                 +:+ ") deleted successfully")
      end
  end.

End DatabaseManager.

(** ** [transfer.py]: the transfer service *)

(** [needle in hay] on Python strings. *)
Fixpoint contains (needle hay : string) : bool :=
  if String.prefix needle hay then true
  else match hay with
       | EmptyString => false
       | String _ rest => contains needle rest
       end.

Module TransferManager.

Record transaction := Transaction {
  sender_id : Z;
  sender_name : string;
  receiver_id : Z;
  receiver_name : string;
  amount : Z;
  sender_balance_before : Z;
  sender_balance_after : Z;
  receiver_balance_before : Z;
  receiver_balance_after : Z
}.

(** [self.db] and [self.transactions] *)
Record manager := Manager {
  db : world;
  transactions : list transaction
}.

(** [__init__] *)
Definition init (w : world) : manager :=
  {| db := w; transactions := [] |}.

(** A method of [self.db] called from the service. *)
Definition call_db {A} (c : M world A) : M manager A := λ m,
  let (a, w) := c (db m) in
  (a, {| db := w; transactions := transactions m |}).

(** [self.transactions.append(record)] *)
Definition append (t : transaction) : M manager unit := λ m,
  (tt, {| db := db m; transactions := transactions m ++ [t] |}).

Definition check_balance (user_id : Z) (nm : string)
  : M manager (bool * string * option Z) :=
  if (user_id =? 0) || (nm =? EmptyString)%string then
    ret (false, "User ID and name are required", None)
  else
    let* balance := call_db (DatabaseManager.get_user_balance user_id nm) in
    match balance with
    | None =>
        ret (false,
             "User with ID " +:+ pretty user_id +:+ " and name '" +:+ nm
               +:+ "' not found",
             None)
    | Some b => ret (true, "Balance for " +:+ nm +:+ ": $" +:+ pretty b, Some b)
    end.

Definition transfer_funds (sender_id : Z) (sender_name : string)
    (receiver_id : Z) (amount : Z) : M manager (bool * string) :=
  if amount <=? 0 then
    ret (false, "Transfer amount must be greater than 0")
  else
    let* sender :=
      call_db (DatabaseManager.get_user_by_id_and_name sender_id sender_name) in
    match sender with
    | None =>
        ret (false,
             "Sender with ID " +:+ pretty sender_id +:+ " and name '"
               +:+ sender_name +:+ "' not found")
    | Some sender =>
        let* receiver := call_db (DatabaseManager.get_user_by_id receiver_id) in
        match receiver with
        | None =>
            ret (false,
                 "Receiver with ID " +:+ pretty receiver_id +:+ " not found")
        | Some receiver =>
            let sender_balance := get_balance sender 0 in
            let receiver_balance := get_balance receiver 0 in
            if sender_balance <? amount then
              ret (false,
                   "Insufficient balance. Current balance: $"
                     +:+ pretty sender_balance +:+ ", Required: $"
                     +:+ pretty amount)
            else
              let new_sender_balance := sender_balance - amount in
              let new_receiver_balance := receiver_balance + amount in
              let* sent :=
                call_db (DatabaseManager.update_balance sender_id new_sender_balance) in
              if negb sent then
                ret (false, "Failed to update sender balance")
              else
                let* received :=
                  call_db (DatabaseManager.update_balance receiver_id
                             new_receiver_balance) in
                if negb received then
                  let* _ :=
                    call_db (DatabaseManager.update_balance sender_id
                               sender_balance) in
                  ret (false,
                       "Failed to update receiver balance. Transaction rolled back")
                else
                  let* _ :=
                    append {| sender_id := sender_id;
                              sender_name := sender_name;
                              receiver_id := receiver_id;
                              receiver_name := get_name receiver;
                              amount := amount;
                              sender_balance_before := sender_balance;
                              sender_balance_after := new_sender_balance;
                              receiver_balance_before := receiver_balance;
                              receiver_balance_after := new_receiver_balance |} in
                  ret (true,
                       "Successfully transferred $" +:+ pretty amount
                         +:+ " from " +:+ sender_name +:+ " to "
                         +:+ get_name receiver)
        end
    end.

Definition get_transaction_history : M manager (list transaction) := λ m,
  (transactions m, m).

Definition create_account (nm em : string) (initial_balance : Z)
  : M manager (bool * string * option Z) :=
  if (nm =? EmptyString)%string || (em =? EmptyString)%string then
    ret (false, "Name and email are required", None)
  else if (em =? EmptyString)%string || negb (contains "@" em) then
    ret (false, "Invalid email format", None)
  else if initial_balance <? 0 then
    ret (false, "Initial balance cannot be negative", None)
  else
    call_db (DatabaseManager.create_account nm em initial_balance).

Definition delete_account (user_id : Z) (confirm_name : string)
  : M manager (bool * string) :=
  if user_id =? 0 then
    ret (false, "User ID is required")
  else
    let* user := call_db (DatabaseManager.get_user_by_id user_id) in
    match user with
    | None => ret (false, "User with ID " +:+ pretty user_id +:+ " not found")
    | Some u =>
        if negb (get_name u =? confirm_name)%string then
          ret (false, "Name confirmation failed. Account not deleted.")
        else
          call_db (DatabaseManager.delete_account user_id)
    end.

(** The operations of the service, as the console menu calls them. *)
Inductive op :=
| CheckBalance (user_id : Z) (nm : string)
| TransferFunds (sender_id : Z) (sender_name : string) (receiver_id amount : Z)
| CreateAccount (nm em : string) (initial_balance : Z)
| DeleteAccount (user_id : Z) (confirm_name : string)
| GetTransactionHistory.

(** The state after an operation; [succeeded] is the first component of
    the tuple it returns. *)
Definition step (o : op) (m : manager) : manager :=
  match o with
  | CheckBalance u n => (check_balance u n m).2
  | TransferFunds s n r a => (transfer_funds s n r a m).2
  | CreateAccount n e b => (create_account n e b m).2
  | DeleteAccount u c => (delete_account u c m).2
  | GetTransactionHistory => (get_transaction_history m).2
  end.

Definition steps (os : list op) (m : manager) : manager :=
  foldl (λ m o, step o m) m os.

End TransferManager.

(** * Vocabulary of the properties *)

Import DatabaseManager TransferManager.

(** The world after a call for [q] that left the table as it was. *)
Definition issued (q : query) (w : world) : world :=
  {| table := table w; faults := tail (faults w); log := log w ++ [q] |}.

(** Whether the next call to the store raises. *)
Definition next_raises (w : world) : bool :=
  match head (faults w) with
  | Some (Some _) => true
  | _ => false
  end.

(** The balance stored for an identifier. *)
Definition stored_balance (k : Z) (t : gmap Z row) : option Z :=
  t !! k ≫= balance.

(** The sum of the balances in the table, a missing balance counting as 0. *)
Definition total_balance (t : gmap Z row) : Z :=
  map_fold (λ _ r acc, default 0 (balance r) + acc) 0 t.

(** The sender is found by identifier and name with balance [b], the
    receiver is found by identifier with balance [rb], and the writes of
    [b - a] to the sender and of [rb + a] to the receiver both succeed,
    leaving the store in [w4]. *)
Definition found_and_written (sid : Z) (sn : string) (rid a b rb : Z)
    (m : manager) (w4 : world) : Prop :=
  ∃ s r w1 w2 w3,
    get_user_by_id_and_name sid sn (db m) = (Some s, w1) ∧
    get_balance s 0 = b ∧
    get_user_by_id rid w1 = (Some r, w2) ∧
    get_balance r 0 = rb ∧
    update_balance sid (b - a) w2 = (true, w3) ∧
    update_balance rid (rb + a) w3 = (true, w4).

(** What a completed transfer of [a] is to have brought about: success,
    the sender's stored balance [b - a], the receiver's [rb + a], and one
    more record in the ledger, with these amounts. *)
Definition transferred (sid : Z) (sn : string) (rid a b rb : Z)
    (m : manager) (out : bool * string * manager) : Prop :=
  out.1.1 = true ∧
  stored_balance sid (table (db out.2)) = Some (b - a) ∧
  stored_balance rid (table (db out.2)) = Some (rb + a) ∧
  ∃ rn, transactions out.2 =
          transactions m ++
            [{| sender_id := sid; sender_name := sn;
                receiver_id := rid; receiver_name := rn;
                amount := a;
                sender_balance_before := b; sender_balance_after := b - a;
                receiver_balance_before := rb;
                receiver_balance_after := rb + a |}].

(** The scenario of the specification: A holds 100, B holds 0, and 40 go
    from A to B. *)
Definition scenario_table : gmap Z row :=
  <[1 := Row "A" "a@bank.example" (Some 100)]>
    (<[2 := Row "B" "b@bank.example" (Some 0)]> ∅).

Definition scenario : manager := init (World scenario_table [] []).

(** The state of the service once the store has moved to [w]. *)
Definition with_db (w : world) (m : manager) : manager :=
  {| db := w; transactions := transactions m |}.

Definition amount_message : string := "Transfer amount must be greater than 0".

Definition sender_message (sid : Z) (sn : string) : string :=
  "Sender with ID " +:+ pretty sid +:+ " and name '" +:+ sn +:+ "' not found".

Definition receiver_message (rid : Z) : string :=
  "Receiver with ID " +:+ pretty rid +:+ " not found".

Definition insufficient_message (b a : Z) : string :=
  "Insufficient balance. Current balance: $" +:+ pretty b
    +:+ ", Required: $" +:+ pretty a.

(** A request that writes a balance. *)
Definition is_balance_write (q : query) : bool :=
  match q with
  | Update _ _ => true
  | _ => false
  end.

(** The four ways in which a transfer fails validation. *)
Inductive fails_validation (sid : Z) (sn : string) (rid a : Z) (m : manager)
  : Prop :=
| amount_not_positive :
    a ≤ 0 → fails_validation sid sn rid a m
| sender_not_found w1 :
    get_user_by_id_and_name sid sn (db m) = (None, w1) →
    fails_validation sid sn rid a m
| receiver_not_found s w1 w2 :
    get_user_by_id_and_name sid sn (db m) = (Some s, w1) →
    get_user_by_id rid w1 = (None, w2) →
    fails_validation sid sn rid a m
| balance_too_low s r w1 w2 :
    get_user_by_id_and_name sid sn (db m) = (Some s, w1) →
    get_user_by_id rid w1 = (Some r, w2) →
    get_balance s 0 < a →
    fails_validation sid sn rid a m.

Definition sender_write_message : string := "Failed to update sender balance".

Definition rollback_message : string :=
  "Failed to update receiver balance. Transaction rolled back".

Definition success_message (a : Z) (sn rn : string) : string :=
  "Successfully transferred $" +:+ pretty a +:+ " from " +:+ sn
    +:+ " to " +:+ rn.

(** The record of a completed transfer. *)
Definition record_of (sid : Z) (sn : string) (r : user) (a b rb : Z)
  : transaction :=
  {| sender_id := sid; sender_name := sn;
     receiver_id := r.1; receiver_name := get_name r;
     amount := a;
     sender_balance_before := b; sender_balance_after := b - a;
     receiver_balance_before := rb; receiver_balance_after := rb + a |}.

(** The seven ways through [transfer_funds], each with what the store
    answered on the way and the result and state it ends in. *)
Inductive transfer_run (sid : Z) (sn : string) (rid a : Z) (m : manager)
  : bool * string * manager → Prop :=
| run_amount :
    a ≤ 0 →
    transfer_run sid sn rid a m (false, amount_message, m)
| run_no_sender w1 :
    0 < a →
    get_user_by_id_and_name sid sn (db m) = (None, w1) →
    transfer_run sid sn rid a m (false, sender_message sid sn, with_db w1 m)
| run_no_receiver s w1 w2 :
    0 < a →
    get_user_by_id_and_name sid sn (db m) = (Some s, w1) →
    get_user_by_id rid w1 = (None, w2) →
    transfer_run sid sn rid a m (false, receiver_message rid, with_db w2 m)
| run_insufficient s r w1 w2 :
    0 < a →
    get_user_by_id_and_name sid sn (db m) = (Some s, w1) →
    get_user_by_id rid w1 = (Some r, w2) →
    get_balance s 0 < a →
    transfer_run sid sn rid a m
      (false, insufficient_message (get_balance s 0) a, with_db w2 m)
| run_sender_write_failed s r w1 w2 w3 :
    0 < a →
    get_user_by_id_and_name sid sn (db m) = (Some s, w1) →
    get_user_by_id rid w1 = (Some r, w2) →
    a ≤ get_balance s 0 →
    update_balance sid (get_balance s 0 - a) w2 = (false, w3) →
    transfer_run sid sn rid a m (false, sender_write_message, with_db w3 m)
| run_rolled_back s r w1 w2 w3 w4 restored w5 :
    0 < a →
    get_user_by_id_and_name sid sn (db m) = (Some s, w1) →
    get_user_by_id rid w1 = (Some r, w2) →
    a ≤ get_balance s 0 →
    update_balance sid (get_balance s 0 - a) w2 = (true, w3) →
    update_balance rid (get_balance r 0 + a) w3 = (false, w4) →
    update_balance sid (get_balance s 0) w4 = (restored, w5) →
    transfer_run sid sn rid a m (false, rollback_message, with_db w5 m)
| run_completed s r w1 w2 w3 w4 :
    0 < a →
    get_user_by_id_and_name sid sn (db m) = (Some s, w1) →
    get_user_by_id rid w1 = (Some r, w2) →
    a ≤ get_balance s 0 →
    update_balance sid (get_balance s 0 - a) w2 = (true, w3) →
    update_balance rid (get_balance r 0 + a) w3 = (true, w4) →
    transfer_run sid sn rid a m
      (true, success_message a sn (get_name r),
       {| db := w4;
          transactions :=
            transactions m ++
              [record_of sid sn r a (get_balance s 0) (get_balance r 0)] |}).

(** Every balance stored in the table is non-negative. *)
Definition balances_nonneg (t : gmap Z row) : Prop :=
  ∀ k r b, t !! k = Some r → balance r = Some b → 0 ≤ b.

(** What every record of the ledger satisfies. *)
Definition record_ok (x : transaction) : Prop :=
  sender_balance_after x = sender_balance_before x - amount x ∧
  receiver_balance_after x = receiver_balance_before x + amount x ∧
  0 < amount x ∧
  0 ≤ sender_balance_after x.

(** ** Messages of the other operations *)

Definition required_message : string := "User ID and name are required".

Definition not_found_message (uid : Z) (nm : string) : string :=
  "User with ID " +:+ pretty uid +:+ " and name '" +:+ nm +:+ "' not found".

Definition balance_message (nm : string) (b : Z) : string :=
  "Balance for " +:+ nm +:+ ": $" +:+ pretty b.

Definition id_required_message : string := "User ID is required".

Definition no_user_message (uid : Z) : string :=
  "User with ID " +:+ pretty uid +:+ " not found".

Definition confirmation_message : string :=
  "Name confirmation failed. Account not deleted.".

Definition deleted_message (nm : string) (uid : Z) : string :=
  "Account for " +:+ nm +:+ " (ID: " +:+ pretty uid
    +:+ ") deleted successfully".

Definition created_message (nm : string) (uid : Z) : string :=
  "Account created successfully for " +:+ nm +:+ " with ID " +:+ pretty uid.

Definition exists_message (em : string) : string :=
  "Email " +:+ em +:+ " already exists".

(** The store answers its next [n] calls. *)
Definition answers (n : nat) (w : world) : Prop :=
  Forall (λ f, f = None) (take n (faults w)).

(** Some row of the table carries the email. *)
Definition email_taken (em : string) (t : gmap Z row) : Prop :=
  ∃ k r, t !! k = Some r ∧ email r = em.

Definition name_email_message : string := "Name and email are required".

Definition email_format_message : string := "Invalid email format".

Definition negative_message : string := "Initial balance cannot be negative".

(** A store that answers the email pre-check and raises on the insert. *)
Definition insert_raises : manager :=
  init (World scenario_table [None; Some "connection lost"] []).

(** A store that answers three calls and raises on the fourth, the
    receiver-side write; the compensating write is answered. *)
Definition receiver_write_raises : manager :=
  init (World scenario_table [None; None; None; Some "connection lost"] []).

(** A row whose dictionary has no balance field. *)
Definition no_balance_field : manager :=
  init (World (<[3 := Row "C" "c@bank.example" None]> scenario_table) [] []).

(** An empty table behind a store that answers every call. *)
Definition empty_store : manager := init (World ∅ [] []).
(** * Vocabulary of the further properties *)

(** No two rows carry the same email. *)
Definition emails_unique (t : gmap Z row) : Prop :=
  ∀ j k x y, t !! j = Some x → t !! k = Some y → email x = email y → j = k.

(** The record of a row, as [select] hands it back, when its name is [n]. *)
Definition named (n : string) (u : user) : option user :=
  if decide (get_name u = n) then Some u else None.

(** The name and the email of the row stored under an identifier. *)
Definition holder (k : Z) (t : gmap Z row) : option (string * string) :=
  (λ r, (name r, email r)) <$> t !! k.

(** The requests [transfer_funds] can issue, in the order it issues them,
    for a sender balance [b] and a receiver balance [rb]. *)
Definition transfer_requests (sid : Z) (sn : string) (rid a b rb : Z)
  : list query :=
  [Select [EqId sid; EqName sn]; Select [EqId rid];
   Update (b - a) [EqId sid]; Update (rb + a) [EqId rid];
   Update b [EqId sid]].

(** From [t] to [t'] only balances changed, and only those of the rows
    [sid] and [rid]: every row keeps its name and email, no row is added
    or removed, and the other rows are as they were. *)
Definition only_balances_of (sid rid : Z) (t t' : gmap Z row) : Prop :=
  (∀ k, holder k t' = holder k t) ∧
  (∀ k, k ≠ sid → k ≠ rid → t' !! k = t !! k).

(** A store that answers three calls and raises on the fourth and the
    fifth: the receiver-side write and the compensating write. *)
Definition both_writes_raise : manager :=
  init (World scenario_table
          [None; None; None; Some "connection lost"; Some "connection lost"]
          []).

(** The requests an operation of the service can issue, in the order it
    issues them ([b] and [rb] being the balances a transfer has read). *)
Definition op_requests (o : op) (b rb : Z) : list query :=
  match o with
  | CheckBalance u n => [Select [EqId u; EqName n]]
  | TransferFunds s n r a => transfer_requests s n r a b rb
  | CreateAccount n e b0 => [Select [EqEmail e]; Insert n e b0]
  | DeleteAccount u c => [Select [EqId u]; Select [EqId u]; Delete [EqId u]]
  | GetTransactionHistory => []
  end.

(** * [main.py]: the console front end, and the printing method of
      [transfer.py]

    The console is the lines still to be read from the keyboard and the
    text written so far.  [print] writes its argument and a newline;
    [input] writes its prompt, then hands back the next line, or raises
    [EOFError] when there is none.  The built-ins the front end uses on
    strings ([int], [str.strip], [str.lower] and left alignment in a
    format specification) are not code of the repository; they are
    parameters of the embedding. *)

Module Main.

Record session := Session {
  transfer_manager : manager;
  stdin : list string;
  stdout : list string
}.

(** The exceptions the front end meets: [int] on a malformed number, and
    [input] at the end of the input. *)
Inductive exn :=
| ValueError
| EOFError.

(** A piece of front-end code: it returns or raises, and changes the
    session on the way. *)
Definition IO (A : Type) : Type := session → (exn + A) * session.

Definition io_ret {A} (a : A) : IO A := λ σ, (inr a, σ).

Definition io_bind {A B} (c : IO A) (k : A → IO B) : IO B := λ σ,
  match c σ with
  | (inl e, σ') => (inl e, σ')
  | (inr a, σ') => k a σ'
  end.

Notation "'let?' x ':=' c 'in' k" := (io_bind c (λ x, k))
  (at level 10, x name, c at level 100, k at level 200).

Definition raise {A} (e : exn) : IO A := λ σ, (inl e, σ).

(** The newline character. *)
Definition nl : string := String (Ascii.ascii_of_nat 10) EmptyString.

(** [s * n] on strings. *)
Fixpoint times (s : string) (n : nat) : string :=
  match n with
  | O => EmptyString
  | S n => s +:+ times s n
  end.

Definition write (s : string) (σ : session) : session :=
  {| transfer_manager := transfer_manager σ;
     stdin := stdin σ;
     stdout := stdout σ ++ [s] |}.

Definition print (s : string) : IO unit := λ σ,
  (inr tt, write (s +:+ nl) σ).

Definition input (prompt : string) : IO string := λ σ,
  match stdin σ with
  | [] => (inl EOFError, write prompt σ)
  | line :: rest =>
      (inr line,
       {| transfer_manager := transfer_manager σ;
          stdin := rest;
          stdout := stdout σ ++ [prompt] |})
  end.

(** A method of the transfer manager called from the front end. *)
Definition call {A} (c : M manager A) : IO A := λ σ,
  let (a, m) := c (transfer_manager σ) in
  (inr a,
   {| transfer_manager := m; stdin := stdin σ; stdout := stdout σ |}).

(** [try: body / except ValueError: print(msg) / except Exception as e:
    print(f"Error: {e}")], the text of an [EOFError] raised by [input]
    being [EOF when reading a line]. *)
Definition guarded (body : IO unit) (msg : string) : session → session := λ σ,
  match body σ with
  | (inr _, σ') => σ'
  | (inl ValueError, σ') => (print msg σ').2
  | (inl EOFError, σ') => (print "Error: EOF when reading a line" σ').2
  end.

(** [transfer_manager.transactions] *)
Definition ledger : IO (list transaction) := λ σ,
  (inr (transactions (transfer_manager σ)), σ).

(** [TransferManager.print_transaction_details] *)
Definition print_transaction_details (t : transaction) : IO unit :=
  let? _ := print (nl +:+ times "=" 60) in
  let? _ := print "TRANSACTION DETAILS" in
  let? _ := print (times "=" 60) in
  let? _ := print ("From: " +:+ sender_name t +:+ " (ID: "
                     +:+ pretty (sender_id t) +:+ ")") in
  let? _ := print ("To: " +:+ receiver_name t +:+ " (ID: "
                     +:+ pretty (receiver_id t) +:+ ")") in
  let? _ := print ("Amount: $" +:+ pretty (amount t)) in
  let? _ := print ("Sender Balance: $" +:+ pretty (sender_balance_before t)
                     +:+ " → $" +:+ pretty (sender_balance_after t)) in
  let? _ := print ("Receiver Balance: $"
                     +:+ pretty (receiver_balance_before t)
                     +:+ " → $" +:+ pretty (receiver_balance_after t)) in
  print (times "=" 60 +:+ nl).

Definition display_menu : IO unit :=
  let? _ := print (nl +:+ times "=" 60) in
  let? _ := print "BANK MANAGEMENT SYSTEM" in
  let? _ := print (times "=" 60) in
  let? _ := print "1. Check Balance" in
  let? _ := print "2. Transfer Funds" in
  let? _ := print "3. Create Account" in
  let? _ := print "4. Delete Account" in
  let? _ := print "5. View All Users" in
  let? _ := print "6. View Transaction History" in
  let? _ := print "7. Exit" in
  print (times "=" 60).

(** [for x in xs: body(x)] *)
Fixpoint for_each {A} (xs : list A) (body : A → IO unit) : IO unit :=
  match xs with
  | [] => io_ret tt
  | x :: rest => let? _ := body x in for_each rest body
  end.

(** [enumerate(xs, start)] *)
Fixpoint enumerate {A} (xs : list A) (start : Z) : list (Z * A) :=
  match xs with
  | [] => []
  | x :: rest => (start, x) :: enumerate rest (start + 1)
  end.

Definition view_transaction_history_option : session → session := λ σ,
  let body :=
    let? transactions := call get_transaction_history in
    match transactions with
    | [] => print (nl +:+ "No transactions found.")
    | _ =>
        let? _ := print (nl +:+ times "=" 100) in
        let? _ := print "TRANSACTION HISTORY" in
        let? _ := print (times "=" 100) in
        for_each (enumerate transactions 1)
          (λ it, let? _ := print (nl +:+ "Transaction " +:+ pretty it.1 +:+ ":") in
                 print_transaction_details it.2)
    end in
  (body σ).2.

Section Builtins.

(** [int(s)]: the number, or [None] where Python raises [ValueError]. *)
Variable int_of : string → option Z.

(** [s.strip()] and [s.lower()] *)
Variables strip lower : string → string.

(** [format(s, "<n")]: [s], padded on the right to [n] characters. *)
Variable ljust : string → nat → string.

Definition int (s : string) : IO Z :=
  match int_of s with
  | Some n => io_ret n
  | None => raise ValueError
  end.

Definition check_balance_option : session → session :=
  guarded
    (let? s := input "Enter User ID: " in
     let? user_id := int s in
     let? n := input "Enter Name: " in
     let name := strip n in
     let? r := call (check_balance user_id name) in
     let '(success, message, balance) := r in
     let? _ := print (nl +:+ message) in
     if success then
       print ("Balance: $" +:+ from_option pretty "None" balance)
     else io_ret tt)
    "Invalid User ID. Please enter a number.".

Definition transfer_funds_option : session → session :=
  guarded
    (let? s := input "Enter Sender ID: " in
     let? sender_id := int s in
     let? n := input "Enter Sender Name: " in
     let sender_name := strip n in
     let? s := input "Enter Receiver ID: " in
     let? receiver_id := int s in
     let? s := input "Enter Amount to Transfer: " in
     let? amount := int s in
     let? r := call (transfer_funds sender_id sender_name receiver_id amount) in
     let '(success, message) := r in
     if success then
       let? _ := print (nl +:+ "✓ " +:+ message) in
       let? transactions := ledger in
       match last transactions with
       | Some t => print_transaction_details t
       | None => io_ret tt
       end
     else print (nl +:+ "✗ " +:+ message))
    "Invalid input. Please enter valid numbers.".

Definition create_account_option : session → session :=
  guarded
    (let? n := input "Enter Name: " in
     let name := strip n in
     let? e := input "Enter Email: " in
     let email := strip e in
     let? b := input "Enter Initial Balance (default 0): " in
     let balance_input := strip b in
     let? initial_balance :=
       if (balance_input =? EmptyString)%string then io_ret 0
       else int balance_input in
     let? r := call (create_account name email initial_balance) in
     let '(success, message, user_id) := r in
     if success then print (nl +:+ "✓ " +:+ message)
     else print (nl +:+ "✗ " +:+ message))
    "Invalid input. Please enter valid numbers for balance.".

Definition delete_account_option : session → session :=
  guarded
    (let? s := input "Enter User ID to Delete: " in
     let? user_id := int s in
     let? n := input "Enter the account holder's name to confirm deletion: " in
     let confirm_name := strip n in
     let? _ := print (nl +:+ times "!" 60) in
     let? _ := print "WARNING: This action cannot be undone!" in
     let? _ := print (times "!" 60) in
     let? c := input "Are you sure you want to delete this account? (yes/no): " in
     let confirm := lower (strip c) in
     if negb (confirm =? "yes")%string then print "Deletion cancelled."
     else
       let? r := call (delete_account user_id confirm_name) in
       let '(success, message) := r in
       if success then print (nl +:+ "✓ " +:+ message)
       else print (nl +:+ "✗ " +:+ message))
    "Invalid User ID. Please enter a number.".

(** The front end opens a repository of its own on the same table. *)
Definition view_all_users_option : session → session := λ σ,
  let body :=
    let? users := call (call_db get_all_users) in
    match users with
    | [] => print (nl +:+ "No users found in database.")
    | _ =>
        let? _ := print (nl +:+ times "=" 80) in
        let? _ := print (ljust "ID" 5 +:+ " " +:+ ljust "Name" 25 +:+ " "
                           +:+ ljust "Email" 30 +:+ " " +:+ ljust "Balance" 15) in
        let? _ := print (times "=" 80) in
        let? _ :=
          for_each users
            (λ user,
               let user_id := get_id user in
               let name := get_name user in
               let email := Store.email user.2 in
               let balance := get_balance user 0 in
               print (ljust (pretty user_id) 5 +:+ " " +:+ ljust name 25 +:+ " "
                        +:+ ljust email 30 +:+ " $" +:+ ljust (pretty balance) 14)) in
        print (times "=" 80)
    end in
  (body σ).2.

(** How a run of the program ends: on choice 7, on an exception nothing
    catches, or not yet. *)
Inductive outcome :=
| Exited
| Crashed (e : exn)
| Running.

(** [while True: ...], for at most [fuel] turns of the menu. *)
Fixpoint main_loop (fuel : nat) (σ : session) : outcome * session :=
  match fuel with
  | O => (Running, σ)
  | S fuel =>
      match (let? _ := display_menu in input "Enter your choice (1-7): ") σ with
      | (inl e, σ') => (Crashed e, σ')
      | (inr line, σ') =>
          let choice := strip line in
          if (choice =? "1")%string then main_loop fuel (check_balance_option σ')
          else if (choice =? "2")%string then
            main_loop fuel (transfer_funds_option σ')
          else if (choice =? "3")%string then
            main_loop fuel (create_account_option σ')
          else if (choice =? "4")%string then
            main_loop fuel (delete_account_option σ')
          else if (choice =? "5")%string then
            main_loop fuel (view_all_users_option σ')
          else if (choice =? "6")%string then
            main_loop fuel (view_transaction_history_option σ')
          else if (choice =? "7")%string then
            (Exited,
             (print (nl +:+ "Thank you for using Bank Management System. Goodbye!")
                σ').2)
          else
            main_loop fuel
              (print "Invalid choice. Please enter a number between 1 and 7."
                 σ').2
      end
  end.

(** [main()], on a store [w] and the lines [lines] typed at the keyboard.
    Every turn of the menu reads a line, so one turn more than there are
    lines is enough. *)
Definition main (w : world) (lines : list string) : outcome * session :=
  let start :=
    (let? _ := print (nl +:+ times "=" 60) in
     let? _ := print "Welcome to Bank Management System" in
     print (times "=" 60))
      {| transfer_manager := init w; stdin := lines; stdout := [] |} in
  main_loop (S (length lines)) start.2.

End Builtins.

End Main.

(** Front-end code that reads no further back than it was given: the
    lines left to read are a suffix of the lines it started with. *)
Definition reads_forward {A} (c : Main.IO A) : Prop :=
  ∀ σ, Main.stdin (c σ).2 `suffix_of` Main.stdin σ.

(** A session with nothing typed and nothing written yet. *)
Definition blank : Main.session :=
  {| Main.transfer_manager := empty_store;
     Main.stdin := [];
     Main.stdout := [] |}.

(** What a piece of front-end code writes, run on its own. *)
Definition written {A} (c : Main.IO A) : list string :=
  Main.stdout (c blank).2.

(** The line [view_all_users_option] prints for a row. *)
Definition user_line (ljust : string → nat → string) (u : user) : string :=
  ljust (pretty (get_id u)) 5%nat +:+ " " +:+ ljust (get_name u) 25%nat
    +:+ " " +:+ ljust (email u.2) 30%nat +:+ " $"
    +:+ ljust (pretty (get_balance u 0)) 14%nat.

(** The heading [view_transaction_history_option] prints before the
    [i]-th record, counting from 0. *)
Definition history_heading (i : nat) : string :=
  Main.nl +:+ "Transaction " +:+ pretty (Z.of_nat i + 1) +:+ ":".

(** * Facts about the record store and the repository *)

Section StoreFacts.
Implicit Types (t : gmap Z row) (w : world) (k : Z) (r : row).

Lemma satisfies_cons c cs (u : user) :
  satisfies (c :: cs) u ↔ holds c u ∧ satisfies cs u.
Proof. unfold satisfies. by rewrite Forall_cons. Qed.

Lemma satisfies_nil (u : user) : satisfies [] u.
Proof. constructor. Qed.

(** A filter on the primary key selects at most the row stored under it. *)
Lemma filter_by_id t k cs :
  filter (satisfies (EqId k :: cs)) t =
    match t !! k with
    | Some r => if decide (satisfies cs (k, r)) then {[k := r]} else ∅
    | None => ∅
    end.
Proof.
  apply map_eq; intros j. apply option_eq; intros x.
  rewrite map_lookup_filter_Some, satisfies_cons; simpl.
  destruct (t !! k) as [r|] eqn:Hk.
  - case_decide as Hs.
    + rewrite lookup_singleton_Some. split.
      * intros (Hj & -> & _). split; congruence.
      * intros [<- <-]. done.
    + rewrite lookup_empty. split; [|done].
      intros (Hj & -> & Hx). assert (x = r) as -> by congruence. done.
  - rewrite lookup_empty. split; [|done].
    intros (Hj & -> & _). congruence.
Qed.

Lemma select_by_id t k :
  map_to_list (filter (satisfies [EqId k]) t) =
    match t !! k with Some r => [(k, r)] | None => [] end.
Proof.
  rewrite filter_by_id. destruct (t !! k) as [r|].
  - rewrite decide_True by apply satisfies_nil. apply map_to_list_singleton.
  - apply map_to_list_empty.
Qed.

Lemma select_by_id_and_name t k n :
  map_to_list (filter (satisfies [EqId k; EqName n]) t) =
    match t !! k with
    | Some r => if decide (name r = n) then [(k, r)] else []
    | None => []
    end.
Proof.
  rewrite filter_by_id. destruct (t !! k) as [r|].
  - destruct (decide (name r = n)) as [Hn|Hn].
    + rewrite decide_True; [apply map_to_list_singleton|].
      apply satisfies_cons; split; [done | apply satisfies_nil].
    + rewrite decide_False; [apply map_to_list_empty|].
      intros [H _]%satisfies_cons. done.
  - apply map_to_list_empty.
Qed.

Lemma update_by_id t k b :
  run (Update b [EqId k]) t =
    match t !! k with
    | Some r => ([(k, set_balance b r)], <[k := set_balance b r]> t)
    | None => ([], t)
    end.
Proof.
  simpl. rewrite filter_by_id. destruct (t !! k) as [r|].
  - rewrite decide_True by apply satisfies_nil.
    rewrite map_fmap_singleton, map_to_list_singleton.
    by rewrite insert_union_singleton_l.
  - rewrite fmap_empty, map_to_list_empty. by rewrite (left_id_L ∅ (∪)).
Qed.

Lemma delete_by_id t k :
  filter (λ u : user, ¬ satisfies [EqId k] u) t = delete k t.
Proof.
  apply map_eq; intros j. apply option_eq; intros x.
  rewrite map_lookup_filter_Some, lookup_delete_Some, satisfies_cons; simpl.
  split.
  - intros [Hj Hn]. split; [|done]. intros <-. apply Hn.
    split; [done | apply satisfies_nil].
  - intros [Hn Hj]. split; [done|]. intros [<- _]. done.
Qed.

(** The identifier given to a new row is not in use. *)
Lemma next_id_above t k r : t !! k = Some r → k < next_id t.
Proof.
  intros Hk. unfold next_id.
  assert (k ∈ (map_to_list t).*1) as Hin.
  { apply list_elem_of_fmap. exists (k, r). split; [done|].
    by apply elem_of_map_to_list. }
  clear Hk. generalize dependent ((map_to_list t).*1). intros l Hin.
  induction Hin as [x l | x y l Hin IH]; simpl;
    [|revert IH]; generalize (foldr Z.max 0 l); lia.
Qed.

Lemma next_id_fresh t : t !! next_id t = None.
Proof.
  destruct (t !! next_id t) as [r|] eqn:Hk; [|done].
  apply next_id_above in Hk. lia.
Qed.

Lemma next_id_pos t : 0 < next_id t.
Proof.
  unfold next_id. assert (0 ≤ foldr Z.max 0 (map_to_list t).*1); [|lia].
  induction ((map_to_list t).*1) as [|x l IH]; simpl; [lia|].
  revert IH. generalize (foldr Z.max 0 l); lia.
Qed.

End StoreFacts.

Section Contains.

Lemma prefix_append (x q : string) : String.prefix x (x +:+ q) = true.
Proof.
  induction x as [|c x IH]; simpl; [by destruct q|].
  destruct (Ascii.ascii_dec c c); [apply IH | done].
Qed.

Lemma contains_unfold (x s : string) :
  contains x s =
    if String.prefix x s then true
    else match s with
         | EmptyString => false
         | String _ rest => contains x rest
         end.
Proof. by destruct s. Qed.

Lemma contains_prefix (x q : string) : contains x (x +:+ q) = true.
Proof. by rewrite contains_unfold, prefix_append. Qed.

Lemma contains_later (x : string) c (s : string) :
  contains x s = true → contains x (String c s) = true.
Proof.
  intros H. rewrite contains_unfold, H. by destruct (String.prefix _ _).
Qed.

Lemma contains_append (x p q : string) : contains x (p +:+ x +:+ q) = true.
Proof.
  induction p as [|c p IH]; [exact (contains_prefix x q)|].
  exact (contains_later x c _ IH).
Qed.

Lemma append_empty_r (x : string) : x +:+ EmptyString = x.
Proof.
  induction x as [|c x IH]; [done|].
  change (String c (x +:+ EmptyString) = String c x). by rewrite IH.
Qed.

Lemma contains_suffix (x p : string) : contains x (p +:+ x) = true.
Proof.
  rewrite <- (append_empty_r x) at 2. apply contains_append.
Qed.

Lemma append_assoc (p q r : string) : (p +:+ q) +:+ r = p +:+ (q +:+ r).
Proof.
  induction p as [|c p IH]; [done|].
  change (String c ((p +:+ q) +:+ r) = String c (p +:+ (q +:+ r))).
  by rewrite IH.
Qed.

(** The message of step (4) shows the balance and the amount. *)
Lemma insufficient_message_contains b a :
  contains "Insufficient balance" (insufficient_message b a) = true ∧
  contains (pretty b) (insufficient_message b a) = true ∧
  contains (pretty a) (insufficient_message b a) = true.
Proof.
  unfold insufficient_message. split; [|split].
  - change "Insufficient balance. Current balance: $"
      with ("Insufficient balance" +:+ ". Current balance: $").
    rewrite append_assoc. apply contains_prefix.
  - apply contains_append.
  - rewrite <- (append_assoc _ (pretty b)), <- (append_assoc _ ", Required: $").
    apply contains_suffix.
Qed.

End Contains.

Section RepositoryFacts.
Implicit Types (t : gmap Z row) (w : world) (k : Z) (r : row) (u : user).

Lemma get_user_by_id_run k w :
  get_user_by_id k w =
    (if next_raises w then None else pair k <$> table w !! k,
     issued (Select [EqId k]) w).
Proof.
  unfold get_user_by_id, bind, execute, next_raises, issued, ret; simpl.
  rewrite select_by_id.
  destruct (head (faults w)) as [[e|]|]; try done;
    by destruct (table w !! k).
Qed.

Lemma get_user_by_id_and_name_run k n w :
  get_user_by_id_and_name k n w =
    (if next_raises w then None
     else r ← table w !! k; if decide (name r = n) then Some (k, r) else None,
     issued (Select [EqId k; EqName n]) w).
Proof.
  unfold get_user_by_id_and_name, bind, execute, next_raises, issued, ret; simpl.
  rewrite select_by_id_and_name.
  destruct (head (faults w)) as [[e|]|]; try done;
    destruct (table w !! k) as [r|]; simpl; try done; by case_decide.
Qed.

Lemma update_balance_run k b w :
  update_balance k b w =
    if next_raises w then (false, issued (Update b [EqId k]) w)
    else match table w !! k with
         | Some r =>
             (true, {| table := <[k := set_balance b r]> (table w);
                       faults := tail (faults w);
                       log := log w ++ [Update b [EqId k]] |})
         | None => (false, issued (Update b [EqId k]) w)
         end.
Proof.
  unfold update_balance, bind, execute, next_raises, issued, ret.
  rewrite update_by_id.
  destruct (head (faults w)) as [[e|]|]; try done;
    by destruct (table w !! k).
Qed.

(** A lookup never changes the table, and issues exactly its request. *)
Lemma get_user_by_id_world k w o w' :
  get_user_by_id k w = (o, w') → w' = issued (Select [EqId k]) w.
Proof. rewrite get_user_by_id_run. congruence. Qed.

Lemma get_user_by_id_and_name_world k n w o w' :
  get_user_by_id_and_name k n w = (o, w') →
  w' = issued (Select [EqId k; EqName n]) w.
Proof. rewrite get_user_by_id_and_name_run. congruence. Qed.

(** A record found by identifier is the row stored under it. *)
Lemma get_user_by_id_Some k w u w' :
  get_user_by_id k w = (Some u, w') →
  u.1 = k ∧ table w !! k = Some u.2.
Proof.
  rewrite get_user_by_id_run. intros [= H _]. destruct (next_raises w); [done|].
  destruct (table w !! k) as [r|]; simplify_eq/=. done.
Qed.

Lemma get_user_by_id_and_name_Some k n w u w' :
  get_user_by_id_and_name k n w = (Some u, w') →
  u.1 = k ∧ table w !! k = Some u.2 ∧ name u.2 = n.
Proof.
  rewrite get_user_by_id_and_name_run. intros [= H _].
  destruct (next_raises w); [done|].
  destruct (table w !! k) as [r|]; simpl in H; [|done].
  case_decide; simplify_eq/=. done.
Qed.

(** No matching row: the lookup answers [None], raising or not. *)
Lemma get_user_by_id_and_name_absent k n w :
  (∀ r, table w !! k = Some r → name r ≠ n) →
  (get_user_by_id_and_name k n w).1 = None.
Proof.
  intros Hno. rewrite get_user_by_id_and_name_run; simpl.
  destruct (next_raises w); [done|].
  destruct (table w !! k) as [r|] eqn:Hk; simpl; [|done].
  case_decide; [|done]. by destruct (Hno r).
Qed.

(** A matching row is found when the call is answered. *)
Lemma get_user_by_id_and_name_present k n w r :
  table w !! k = Some r → name r = n → next_raises w = false →
  (get_user_by_id_and_name k n w).1 = Some (k, r).
Proof.
  intros Hk Hn Hf. rewrite get_user_by_id_and_name_run, Hf, Hk; simpl.
  by rewrite decide_True.
Qed.

(** A write that succeeds replaces the balance of the one row with that
    identifier; a write that fails leaves the table as it was. *)
Lemma update_balance_true k b w w' :
  update_balance k b w = (true, w') →
  ∃ r, table w !! k = Some r ∧
       table w' = <[k := set_balance b r]> (table w) ∧
       faults w' = tail (faults w) ∧
       log w' = log w ++ [Update b [EqId k]].
Proof.
  rewrite update_balance_run. destruct (next_raises w); [done|].
  destruct (table w !! k) as [r|]; [|done].
  intros [= <-]. by exists r.
Qed.

Lemma update_balance_false k b w w' :
  update_balance k b w = (false, w') → w' = issued (Update b [EqId k]) w.
Proof.
  rewrite update_balance_run. destruct (next_raises w); [congruence|].
  destruct (table w !! k) as [r|]; congruence.
Qed.

Lemma stored_balance_insert k b r t :
  stored_balance k (<[k := set_balance b r]> t) = Some b.
Proof. unfold stored_balance. by rewrite lookup_insert_eq. Qed.

Lemma stored_balance_insert_ne k j x t :
  k ≠ j → stored_balance j (<[k := x]> t) = stored_balance j t.
Proof. intros. unfold stored_balance. by rewrite lookup_insert_ne. Qed.

End RepositoryFacts.

(** * The transfer service *)

#[local] Arguments get_user_by_id : simpl never.
#[local] Arguments get_user_by_id_and_name : simpl never.
#[local] Arguments get_user_balance : simpl never.
#[local] Arguments update_balance : simpl never.
#[local] Arguments DatabaseManager.create_account : simpl never.
#[local] Arguments DatabaseManager.delete_account : simpl never.
#[local] Arguments get_balance : simpl never.
#[local] Arguments get_name : simpl never.
#[local] Arguments pretty : simpl never.
#[local] Arguments String.append : simpl never.

Section TransferFacts.
Implicit Types (m : manager) (w : world) (s r : user).

(** The run of a transfer whose lookups and writes all succeed. *)
Lemma transfer_funds_completes sid sn rid a m s r w1 w2 w3 w4 :
  0 < a →
  get_user_by_id_and_name sid sn (db m) = (Some s, w1) →
  get_user_by_id rid w1 = (Some r, w2) →
  a ≤ get_balance s 0 →
  update_balance sid (get_balance s 0 - a) w2 = (true, w3) →
  update_balance rid (get_balance r 0 + a) w3 = (true, w4) →
  transfer_funds sid sn rid a m =
    (true,
     "Successfully transferred $" +:+ pretty a +:+ " from " +:+ sn
       +:+ " to " +:+ get_name r,
     {| db := w4;
        transactions :=
          transactions m ++
            [{| sender_id := sid; sender_name := sn;
                receiver_id := rid; receiver_name := get_name r;
                amount := a;
                sender_balance_before := get_balance s 0;
                sender_balance_after := get_balance s 0 - a;
                receiver_balance_before := get_balance r 0;
                receiver_balance_after := get_balance r 0 + a |}] |}).
Proof.
  intros Ha Hs Hr Hb Hw1 Hw2.
  unfold transfer_funds, bind, call_db, append, ret.
  rewrite (proj2 (Z.leb_gt a 0)) by done.
  rewrite Hs; simpl. rewrite Hr; simpl.
  rewrite (proj2 (Z.ltb_ge (get_balance s 0) a)) by done. simpl.
  rewrite Hw1; simpl. rewrite Hw2; simpl. done.
Qed.

End TransferFacts.

(** C1, as amended.  For every amount [a > 0], when the sender is found by
    identifier and name with balance [b ≥ a], the receiver is found by
    identifier with balance [rb], both balance writes succeed and the
    receiver is not the sender, [transfer_funds] returns success, the
    sender's stored balance is [b - a], the receiver's is [rb + a], and
    exactly one record is appended to the ledger, with amount [a], sender
    balance [b] before and [b - a] after, receiver balance [rb] before and
    [rb + a] after.  No other row of the table changes. *)
Theorem transfer_funds_moves_the_amount sid sn rid a b rb m w4 :
  0 < a → a ≤ b →
  found_and_written sid sn rid a b rb m w4 →
  sid ≠ rid →
  transferred sid sn rid a b rb m (transfer_funds sid sn rid a m) ∧
  db (transfer_funds sid sn rid a m).2 = w4 ∧
  ∀ k, k ≠ sid → k ≠ rid → table w4 !! k = table (db m) !! k.
Proof.
  intros Ha Hb (s & r & w1 & w2 & w3 & Hs & <- & Hr & <- & Hw1 & Hw2) Hne.
  rewrite (transfer_funds_completes _ _ _ _ _ _ _ _ _ _ _ Ha Hs Hr Hb Hw1 Hw2).
  apply get_user_by_id_and_name_world in Hs as ->.
  apply get_user_by_id_world in Hr as ->.
  apply update_balance_true in Hw1 as (x & Hx & Ht3 & _ & _).
  apply update_balance_true in Hw2 as (y & Hy & Ht4 & _ & _).
  unfold transferred; simpl in *. rewrite Ht4, Ht3.
  split; [|split; [done|]].
  - split; [done|]. split; [|split].
    + rewrite stored_balance_insert_ne by done. apply stored_balance_insert.
    + apply stored_balance_insert.
    + by eexists.
  - intros k Hk1 Hk2. by rewrite !lookup_insert_ne.
Qed.

(** The scenario of the specification: A holds 100, B holds 0, 40 go from
    A to B; A ends at 60, B at 40, with one record in the ledger. *)
Lemma transfer_funds_moves_the_amount_scenario :
  transferred 1 "A" 2 40 100 0 scenario (transfer_funds 1 "A" 2 40 scenario).
Proof.
  refine (proj1 (transfer_funds_moves_the_amount 1 "A" 2 40 100 0 scenario
                   (db (transfer_funds 1 "A" 2 40 scenario).2) _ _ _ _)).
  - reflexivity.
  - discriminate.
  - do 5 eexists. repeat split; vm_compute; reflexivity.
  - discriminate.
Defined.

(** C1 as stated fails for a transfer to oneself: the sender is found,
    the receiver is found, both writes succeed, and the stored balance of
    the sender ends at [b + a], not at [b - a]. *)
Lemma transfer_funds_to_self_not_debited :
  0 < 40 ∧ 40 ≤ 100 ∧
  found_and_written 1 "A" 1 40 100 100 scenario
    (db (transfer_funds 1 "A" 1 40 scenario).2) ∧
  stored_balance 1 (table (db (transfer_funds 1 "A" 1 40 scenario).2))
    = Some 140 ∧
  ¬ transferred 1 "A" 1 40 100 100 scenario (transfer_funds 1 "A" 1 40 scenario).
Proof.
  split; [reflexivity|]. split; [discriminate|]. split; [|split].
  - do 5 eexists. repeat split; vm_compute; reflexivity.
  - vm_compute. reflexivity.
  - intros (_ & H & _). vm_compute in H. discriminate.
Qed.

(** ** The messages of the validation steps *)

Section Validation.
Variables (sid : Z) (sn : string) (rid a : Z) (m : manager).

Lemma transfer_funds_amount :
  a ≤ 0 → transfer_funds sid sn rid a m = (false, amount_message, m).
Proof.
  intros Ha. unfold transfer_funds, ret.
  by rewrite (proj2 (Z.leb_le a 0)).
Qed.

Lemma transfer_funds_no_sender w1 :
  0 < a →
  get_user_by_id_and_name sid sn (db m) = (None, w1) →
  transfer_funds sid sn rid a m = (false, sender_message sid sn, with_db w1 m).
Proof.
  intros Ha Hs. unfold transfer_funds, bind, call_db, ret.
  rewrite (proj2 (Z.leb_gt a 0)) by done. by rewrite Hs.
Qed.

Lemma transfer_funds_no_receiver s w1 w2 :
  0 < a →
  get_user_by_id_and_name sid sn (db m) = (Some s, w1) →
  get_user_by_id rid w1 = (None, w2) →
  transfer_funds sid sn rid a m = (false, receiver_message rid, with_db w2 m).
Proof.
  intros Ha Hs Hr. unfold transfer_funds, bind, call_db, ret.
  rewrite (proj2 (Z.leb_gt a 0)) by done.
  rewrite Hs; simpl. by rewrite Hr.
Qed.

Lemma transfer_funds_insufficient s r w1 w2 :
  0 < a →
  get_user_by_id_and_name sid sn (db m) = (Some s, w1) →
  get_user_by_id rid w1 = (Some r, w2) →
  get_balance s 0 < a →
  transfer_funds sid sn rid a m =
    (false, insufficient_message (get_balance s 0) a, with_db w2 m).
Proof.
  intros Ha Hs Hr Hb. unfold transfer_funds, bind, call_db, ret.
  rewrite (proj2 (Z.leb_gt a 0)) by done.
  rewrite Hs; simpl. rewrite Hr; simpl.
  by rewrite (proj2 (Z.ltb_lt (get_balance s 0) a)).
Qed.

End Validation.

(** C2.  [transfer_funds] checks, in this order, (1) [amount <= 0],
    (2) the sender looked up by identifier and name, (3) the receiver looked
    up by identifier only, (4) the sender's balance against the amount.  The
    first check that fails decides the result, [(False, message)] with the
    message of that step, whatever the later checks would have found; and
    no later step is run: the store has received no request in case (1),
    the sender lookup alone in case (2), the two lookups and nothing else
    in cases (3) and (4).  The message of step (1) says that the amount
    must be greater than 0, those of steps (2) and (3) say not found. *)
Theorem transfer_funds_validation_order sid sn rid a m :
  (a ≤ 0 →
     transfer_funds sid sn rid a m = (false, amount_message, m)) ∧
  (0 < a → ∀ w1,
     get_user_by_id_and_name sid sn (db m) = (None, w1) →
     transfer_funds sid sn rid a m
       = (false, sender_message sid sn, with_db w1 m) ∧
     w1 = issued (Select [EqId sid; EqName sn]) (db m)) ∧
  (0 < a → ∀ s w1 w2,
     get_user_by_id_and_name sid sn (db m) = (Some s, w1) →
     get_user_by_id rid w1 = (None, w2) →
     transfer_funds sid sn rid a m
       = (false, receiver_message rid, with_db w2 m) ∧
     w2 = issued (Select [EqId rid])
            (issued (Select [EqId sid; EqName sn]) (db m))) ∧
  (0 < a → ∀ s r w1 w2,
     get_user_by_id_and_name sid sn (db m) = (Some s, w1) →
     get_user_by_id rid w1 = (Some r, w2) →
     get_balance s 0 < a →
     transfer_funds sid sn rid a m
       = (false, insufficient_message (get_balance s 0) a, with_db w2 m) ∧
     w2 = issued (Select [EqId rid])
            (issued (Select [EqId sid; EqName sn]) (db m))) ∧
  contains "amount must be greater than 0" amount_message = true ∧
  contains "not found" (sender_message sid sn) = true ∧
  contains "not found" (receiver_message rid) = true.
Proof.
  split; [apply transfer_funds_amount|]. split; [|split; [|split]].
  4: { split; [done|]. unfold sender_message, receiver_message. split.
       - change "' not found" with ("' " +:+ "not found").
         rewrite <- !append_assoc. apply contains_suffix.
       - change " not found" with (" " +:+ "not found").
         rewrite <- !append_assoc. apply contains_suffix. }
  - intros Ha w1 Hs. split; [by apply transfer_funds_no_sender|].
    by apply get_user_by_id_and_name_world in Hs.
  - intros Ha s w1 w2 Hs Hr.
    split; [by eapply transfer_funds_no_receiver|].
    apply get_user_by_id_and_name_world in Hs as ->.
    by apply get_user_by_id_world in Hr.
  - intros Ha s r w1 w2 Hs Hr Hb.
    split; [by eapply transfer_funds_insufficient|].
    apply get_user_by_id_and_name_world in Hs as ->.
    by apply get_user_by_id_world in Hr.
Qed.

(** Each of the four steps, on the scenario of the specification: amount
    0; a sender name that is not A's; a receiver that does not exist (with
    an amount A cannot pay); and 999 asked of A's 100. *)
Lemma transfer_funds_validation_order_scenario :
  transfer_funds 1 "A" 2 0 scenario
    = (false, "Transfer amount must be greater than 0", scenario) ∧
  (transfer_funds 1 "Z" 7 999 scenario).1
    = (false, "Sender with ID 1 and name 'Z' not found") ∧
  (transfer_funds 1 "A" 7 999 scenario).1
    = (false, "Receiver with ID 7 not found") ∧
  (transfer_funds 1 "A" 2 999 scenario).1
    = (false, "Insufficient balance. Current balance: $100, Required: $999").
Proof.
  split; [|split; [|split]].
  - apply (proj1 (transfer_funds_validation_order 1 "A" 2 0 scenario)).
    discriminate.
  - refine (f_equal fst (proj1
      (proj1 (proj2 (transfer_funds_validation_order 1 "Z" 7 999 scenario))
         _ (get_user_by_id_and_name 1 "Z" (db scenario)).2 _)));
      reflexivity.
  - refine (f_equal fst (proj1
      (proj1 (proj2 (proj2 (transfer_funds_validation_order 1 "A" 7 999 scenario)))
         _ (1, Row "A" "a@bank.example" (Some 100))
         (get_user_by_id_and_name 1 "A" (db scenario)).2
         (get_user_by_id 7 (get_user_by_id_and_name 1 "A" (db scenario)).2).2
         _ _))); reflexivity.
  - refine (f_equal fst (proj1
      (proj1 (proj2 (proj2 (proj2 (transfer_funds_validation_order 1 "A" 2 999 scenario))))
         _ (1, Row "A" "a@bank.example" (Some 100))
         (2, Row "B" "b@bank.example" (Some 0))
         (get_user_by_id_and_name 1 "A" (db scenario)).2
         (get_user_by_id 2 (get_user_by_id_and_name 1 "A" (db scenario)).2).2
         _ _ _))); reflexivity.
Defined.

(** ** Failed validation leaves everything in place *)

(** C3.  Whenever [transfer_funds] fails during validation (amount not
    positive, sender not found, receiver not found, or sender balance below
    the amount) it returns failure, the table is as before the call, the
    ledger is as before the call, and the requests it issued to the store
    contain no balance write.  In the last case the message is the
    insufficient-balance message, which contains the current balance and
    the required amount. *)
Theorem transfer_funds_failed_validation_keeps_state sid sn rid a m :
  fails_validation sid sn rid a m →
  let out := transfer_funds sid sn rid a m in
  out.1.1 = false ∧
  table (db out.2) = table (db m) ∧
  transactions out.2 = transactions m ∧
  (∃ qs, log (db out.2) = log (db m) ++ qs ∧
         Forall (λ q, is_balance_write q = false) qs) ∧
  (∀ s r w1 w2,
     0 < a →
     get_user_by_id_and_name sid sn (db m) = (Some s, w1) →
     get_user_by_id rid w1 = (Some r, w2) →
     get_balance s 0 < a →
     let b := get_balance s 0 in
     out.1.2 = insufficient_message b a ∧
     contains (pretty b) out.1.2 = true ∧
     contains (pretty a) out.1.2 = true).
Proof.
  intros Hfail out.
  assert (out.1.1 = false ∧ table (db out.2) = table (db m) ∧
          transactions out.2 = transactions m ∧
          ∃ qs, log (db out.2) = log (db m) ++ qs ∧
                Forall (λ q, is_balance_write q = false) qs) as (H1 & H2 & H3 & H4).
  { subst out. destruct (Z_le_gt_dec a 0) as [Ha|Ha].
    { rewrite transfer_funds_amount by done. repeat split; try done.
      exists []. by rewrite app_nil_r. }
    destruct Hfail as [Hle | w1 Hs | s w1 w2 Hs Hr | s r w1 w2 Hs Hr Hb];
      [lia | | |].
    - rewrite (transfer_funds_no_sender _ _ _ _ _ w1) by (done || lia).
      apply get_user_by_id_and_name_world in Hs as ->.
      repeat split; try done. eexists; split; [done|]. by repeat constructor.
    - rewrite (transfer_funds_no_receiver _ _ _ _ _ s w1 w2) by (done || lia).
      apply get_user_by_id_and_name_world in Hs as ->.
      apply get_user_by_id_world in Hr as ->.
      repeat split; try done. simpl. rewrite <- app_assoc.
      eexists; split; [done|]. by repeat constructor.
    - rewrite (transfer_funds_insufficient _ _ _ _ _ s r w1 w2) by (done || lia).
      apply get_user_by_id_and_name_world in Hs as ->.
      apply get_user_by_id_world in Hr as ->.
      repeat split; try done. simpl. rewrite <- app_assoc.
      eexists; split; [done|]. by repeat constructor. }
  do 4 (split; [done|]). intros s r w1 w2 Ha Hs Hr Hb b. subst out.
  rewrite (transfer_funds_insufficient _ _ _ _ _ s r w1 w2) by done.
  split; [done|]. apply insufficient_message_contains.
Qed.

(** 999 asked of A's 100: failure, balances unchanged, nothing recorded. *)
Lemma transfer_funds_failed_validation_scenario :
  let out := transfer_funds 1 "A" 2 999 scenario in
  out.1.1 = false ∧
  table (db out.2) = scenario_table ∧
  transactions out.2 = [] ∧
  contains "Insufficient balance" out.1.2 = true.
Proof.
  pose proof (transfer_funds_failed_validation_keeps_state 1 "A" 2 999 scenario
    (balance_too_low 1 "A" 2 999 scenario
       (1, Row "A" "a@bank.example" (Some 100))
       (2, Row "B" "b@bank.example" (Some 0))
       (get_user_by_id_and_name 1 "A" (db scenario)).2
       (get_user_by_id 2 (get_user_by_id_and_name 1 "A" (db scenario)).2).2
       eq_refl eq_refl eq_refl)) as (H1 & H2 & H3 & _).
  split; [exact H1|]. split; [exact H2|]. split; [exact H3 | reflexivity].
Defined.

(** ** The two balance writes and the compensating write *)

Section Writes.
Implicit Types (m : manager) (w : world) (s r : user) (t : gmap Z row).

Lemma update_balance_log k b w :
  log (update_balance k b w).2 = log w ++ [Update b [EqId k]].
Proof.
  rewrite update_balance_run. destruct (next_raises w); [done|].
  by destruct (table w !! k).
Qed.

(** A sender who can pay a positive amount has a balance on record. *)
Lemma sender_balance_on_record sid sn w s w1 a :
  get_user_by_id_and_name sid sn w = (Some s, w1) →
  0 < a → a ≤ get_balance s 0 →
  stored_balance sid (table w) = Some (get_balance s 0) ∧
  balance s.2 = Some (get_balance s 0).
Proof.
  intros (_ & Hk & _)%get_user_by_id_and_name_Some Ha Hb.
  unfold stored_balance, get_balance in *. rewrite Hk; simpl.
  destruct (balance s.2) as [b|]; simpl in *; [done | lia].
Qed.

Lemma set_balance_same b x : balance x = Some b → set_balance b x = x.
Proof. destruct x as [n e o]; simpl. by intros ->. Qed.

Lemma set_balance_twice b c x : set_balance b (set_balance c x) = set_balance b x.
Proof. done. Qed.

(** The run of a transfer whose receiver-side write fails. *)
Lemma transfer_funds_receiver_write_fails sid sn rid a m s r w1 w2 w3 w4 :
  0 < a →
  get_user_by_id_and_name sid sn (db m) = (Some s, w1) →
  get_user_by_id rid w1 = (Some r, w2) →
  a ≤ get_balance s 0 →
  update_balance sid (get_balance s 0 - a) w2 = (true, w3) →
  update_balance rid (get_balance r 0 + a) w3 = (false, w4) →
  transfer_funds sid sn rid a m =
    (false, rollback_message,
     with_db (update_balance sid (get_balance s 0) w4).2 m).
Proof.
  intros Ha Hs Hr Hb Hw1 Hw2.
  unfold transfer_funds, bind, call_db, append, ret.
  rewrite (proj2 (Z.leb_gt a 0)) by done.
  rewrite Hs; simpl. rewrite Hr; simpl.
  rewrite (proj2 (Z.ltb_ge (get_balance s 0) a)) by done. simpl.
  rewrite Hw1; simpl. rewrite Hw2; simpl.
  by destruct (update_balance sid (get_balance s 0) w4).
Qed.

Lemma transfer_funds_sender_write_fails sid sn rid a m s r w1 w2 w3 :
  0 < a →
  get_user_by_id_and_name sid sn (db m) = (Some s, w1) →
  get_user_by_id rid w1 = (Some r, w2) →
  a ≤ get_balance s 0 →
  update_balance sid (get_balance s 0 - a) w2 = (false, w3) →
  transfer_funds sid sn rid a m = (false, sender_write_message, with_db w3 m).
Proof.
  intros Ha Hs Hr Hb Hw1.
  unfold transfer_funds, bind, call_db, append, ret.
  rewrite (proj2 (Z.leb_gt a 0)) by done.
  rewrite Hs; simpl. rewrite Hr; simpl.
  rewrite (proj2 (Z.ltb_ge (get_balance s 0) a)) by done. simpl.
  by rewrite Hw1.
Qed.

End Writes.

(** C4.  When the sender-side write succeeds and the receiver-side write
    fails, [transfer_funds] issues a compensating write of the sender's
    original balance, returns failure with a message that mentions the
    rollback whatever that write returned, and appends nothing to the
    ledger.  Whenever the compensating write succeeds, the sender's stored
    balance is the balance stored before the transfer (and so is the whole
    table); when it fails, the sender's stored balance stays at the
    deducted value. *)
Theorem transfer_funds_compensates sid sn rid a m s r w1 w2 w3 w4 restored w5 :
  0 < a →
  get_user_by_id_and_name sid sn (db m) = (Some s, w1) →
  get_user_by_id rid w1 = (Some r, w2) →
  a ≤ get_balance s 0 →
  update_balance sid (get_balance s 0 - a) w2 = (true, w3) →
  update_balance rid (get_balance r 0 + a) w3 = (false, w4) →
  update_balance sid (get_balance s 0) w4 = (restored, w5) →
  transfer_funds sid sn rid a m = (false, rollback_message, with_db w5 m) ∧
  contains "rolled back" rollback_message = true ∧
  transactions (transfer_funds sid sn rid a m).2 = transactions m ∧
  log w5 = log w4 ++ [Update (get_balance s 0) [EqId sid]] ∧
  (restored = true →
     stored_balance sid (table w5) = stored_balance sid (table (db m)) ∧
     stored_balance sid (table w5) = Some (get_balance s 0) ∧
     table w5 = table (db m)) ∧
  (restored = false →
     stored_balance sid (table w5) = Some (get_balance s 0 - a)).
Proof.
  intros Ha Hs Hr Hb Hw1 Hw2 Hw3.
  pose proof (transfer_funds_receiver_write_fails _ _ _ _ _ _ _ _ _ _ _
                Ha Hs Hr Hb Hw1 Hw2) as Hrun.
  rewrite Hw3 in Hrun. rewrite Hrun.
  destruct (sender_balance_on_record _ _ _ _ _ _ Hs Ha Hb) as [Hpre Hbal].
  pose proof (update_balance_log sid (get_balance s 0) w4) as Hlog.
  rewrite Hw3 in Hlog.
  apply get_user_by_id_and_name_Some in Hs as Hrow.
  destruct Hrow as (_ & Hrow & _).
  apply get_user_by_id_and_name_world in Hs as ->.
  apply get_user_by_id_world in Hr as ->.
  apply update_balance_true in Hw1 as (x & Hx & Ht3 & _ & _).
  apply update_balance_false in Hw2 as ->.
  simpl in Hx. assert (x = s.2) as -> by congruence.
  do 4 (split; [done|]). split.
  - intros ->. apply update_balance_true in Hw3 as (y & Hy & Ht5 & _ & _).
    simpl in Hy, Ht5. rewrite Ht3, lookup_insert_eq in Hy.
    injection Hy as <-.
    assert (table w5 = table (db m)) as Heq.
    { rewrite Ht5, Ht3; simpl. rewrite insert_insert_eq, set_balance_twice.
      rewrite set_balance_same by done. by apply insert_id. }
    rewrite Heq. done.
  - intros ->. apply update_balance_false in Hw3 as ->. simpl.
    rewrite Ht3. apply stored_balance_insert.
Qed.

(** The receiver-side write raises: A's 100 are first set to 60, then set
    back to 100, and nothing is recorded. *)
Lemma transfer_funds_compensates_scenario :
  transfer_funds 1 "A" 2 40 receiver_write_raises
    = (false, "Failed to update receiver balance. Transaction rolled back",
       {| db := {| table := scenario_table;
                   faults := [];
                   log := [Select [EqId 1; EqName "A"]; Select [EqId 2];
                           Update 60 [EqId 1]; Update 40 [EqId 2];
                           Update 100 [EqId 1]] |};
          transactions := [] |}).
Proof.
  refine (eq_trans (proj1 (transfer_funds_compensates 1 "A" 2 40
    receiver_write_raises
    (1, Row "A" "a@bank.example" (Some 100))
    (2, Row "B" "b@bank.example" (Some 0))
    (World scenario_table [None; None; Some "connection lost"]
       [Select [EqId 1; EqName "A"]])
    (World scenario_table [None; Some "connection lost"]
       [Select [EqId 1; EqName "A"]; Select [EqId 2]])
    (World (<[1 := Row "A" "a@bank.example" (Some 60)]> scenario_table)
       [Some "connection lost"]
       [Select [EqId 1; EqName "A"]; Select [EqId 2]; Update 60 [EqId 1]])
    (World (<[1 := Row "A" "a@bank.example" (Some 60)]> scenario_table)
       []
       [Select [EqId 1; EqName "A"]; Select [EqId 2]; Update 60 [EqId 1];
        Update 40 [EqId 2]])
    true
    (World scenario_table []
       [Select [EqId 1; EqName "A"]; Select [EqId 2]; Update 60 [EqId 1];
        Update 40 [EqId 2]; Update 100 [EqId 1]])
    _ _ _ _ _ _ _)) _); try reflexivity; try discriminate.
Defined.

(** ** Every run of a transfer *)

(** [transfer_funds] always returns, along one of the seven ways. *)
Lemma transfer_funds_run sid sn rid a m :
  transfer_run sid sn rid a m (transfer_funds sid sn rid a m).
Proof.
  destruct (Z_le_gt_dec a 0) as [Ha|Ha].
  { rewrite transfer_funds_amount by done. by constructor. }
  apply Z.gt_lt in Ha.
  destruct (get_user_by_id_and_name sid sn (db m)) as [[s|] w1] eqn:Hs.
  2: { rewrite (transfer_funds_no_sender _ _ _ _ _ w1) by done.
       by constructor. }
  destruct (get_user_by_id rid w1) as [[r|] w2] eqn:Hr.
  2: { rewrite (transfer_funds_no_receiver _ _ _ _ _ s w1 w2) by done.
       by econstructor. }
  destruct (Z_lt_le_dec (get_balance s 0) a) as [Hb|Hb].
  { rewrite (transfer_funds_insufficient _ _ _ _ _ s r w1 w2) by done.
    by econstructor. }
  destruct (update_balance sid (get_balance s 0 - a) w2) as [[] w3] eqn:Hw1.
  2: { rewrite (transfer_funds_sender_write_fails _ _ _ _ _ s r w1 w2 w3) by done.
       by econstructor. }
  destruct (update_balance rid (get_balance r 0 + a) w3) as [[] w4] eqn:Hw2.
  - rewrite (transfer_funds_completes _ _ _ _ _ s r w1 w2 w3 w4) by done.
    apply get_user_by_id_Some in Hr as Hid. destruct Hid as [Hid _].
    pose proof (run_completed sid sn rid a m s r w1 w2 w3 w4
                  Ha Hs Hr Hb Hw1 Hw2) as Hrun.
    unfold record_of, success_message in Hrun. by rewrite Hid in Hrun.
  - rewrite (transfer_funds_receiver_write_fails _ _ _ _ _ s r w1 w2 w3 w4)
      by done.
    destruct (update_balance sid (get_balance s 0) w4) as [restored w5] eqn:Hw3.
    by econstructor.
Qed.

(** ** The money in the store *)

Section Total.
Implicit Types (t : gmap Z row) (k : Z) (x y : row).

Lemma total_balance_insert t k x y :
  t !! k = Some x →
  total_balance (<[k := y]> t) =
    total_balance t - default 0 (balance x) + default 0 (balance y).
Proof.
  intros Hk. unfold total_balance.
  rewrite (map_fold_delete_L _ _ k x t); [|intros; lia|done].
  rewrite <- (insert_delete_eq t k y).
  rewrite map_fold_insert_L; [lia|intros; lia|apply lookup_delete_eq].
Qed.

Lemma total_balance_set t k x b :
  t !! k = Some x →
  total_balance (<[k := set_balance b x]> t) =
    total_balance t - default 0 (balance x) + b.
Proof. intros Hk. by rewrite (total_balance_insert _ _ x). Qed.

End Total.

(** C9.  A transfer to oneself is not rejected.  When the sender and the
    receiver are the same identifier, the name matches, the balance is
    [b ≥ a > 0] and both writes succeed, [transfer_funds] returns success;
    the receiver-side write of [b + a] lands on the row the sender-side
    write had set to [b - a], so the account ends at [b + a] and the sum
    of the balances in the store has grown by [a]. *)
Theorem transfer_funds_to_self_credits sid sn a b rb m w4 :
  0 < a → a ≤ b →
  found_and_written sid sn sid a b rb m w4 →
  let out := transfer_funds sid sn sid a m in
  out.1.1 = true ∧
  db out.2 = w4 ∧
  rb = b ∧
  stored_balance sid (table (db m)) = Some b ∧
  stored_balance sid (table w4) = Some (b + a) ∧
  total_balance (table w4) = total_balance (table (db m)) + a.
Proof.
  intros Ha Hb (s & r & w1 & w2 & w3 & Hs & <- & Hr & <- & Hw1 & Hw2) out.
  subst out.
  rewrite (transfer_funds_completes _ _ _ _ _ _ _ _ _ _ _ Ha Hs Hr Hb Hw1 Hw2).
  destruct (sender_balance_on_record _ _ _ _ _ _ Hs Ha Hb) as [Hpre Hbal].
  apply get_user_by_id_and_name_Some in Hs as Hrow.
  destruct Hrow as (_ & Hrow & _).
  apply get_user_by_id_and_name_world in Hs as ->.
  apply get_user_by_id_Some in Hr as Hrow'. destruct Hrow' as (_ & Hrow').
  simpl in Hrow'. assert (r.2 = s.2) as Hsame by congruence.
  assert (get_balance r 0 = get_balance s 0) as Hrb
    by (unfold get_balance; by rewrite Hsame).
  apply get_user_by_id_world in Hr as ->.
  apply update_balance_true in Hw1 as (x & Hx & Ht3 & _ & _).
  apply update_balance_true in Hw2 as (y & Hy & Ht4 & _ & _).
  simpl in Hx, Ht3. assert (x = s.2) as -> by congruence.
  rewrite Ht3, lookup_insert_eq in Hy. injection Hy as <-.
  rewrite Hrb in *.
  do 4 (split; [done|]). rewrite Ht4, Ht3. split.
  - apply stored_balance_insert.
  - rewrite insert_insert_eq, set_balance_twice.
    rewrite (total_balance_set _ _ _ _ Hrow), Hbal; simpl. lia.
Qed.

(** A sends 40 to A and ends at 140. *)
Lemma transfer_funds_to_self_credits_scenario :
  let out := transfer_funds 1 "A" 1 40 scenario in
  out.1.1 = true ∧
  stored_balance 1 (table (db out.2)) = Some 140 ∧
  total_balance (table (db out.2)) = total_balance scenario_table + 40.
Proof.
  intros out.
  destruct (transfer_funds_to_self_credits 1 "A" 40 100 100 scenario (db out.2))
    as (H1 & _ & _ & _ & H2 & H3).
  - reflexivity.
  - discriminate.
  - do 5 eexists. repeat split; vm_compute; reflexivity.
  - split; [exact H1|]. split; [exact H2 | exact H3].
Defined.

(** ** Balance enquiries *)

Section CheckBalance.
Implicit Types (m : manager) (w : world) (u : user).

Lemma get_user_balance_run uid nm w :
  get_user_balance uid nm w =
    ((λ u, get_balance u 0) <$> (get_user_by_id_and_name uid nm w).1,
     (get_user_by_id_and_name uid nm w).2).
Proof.
  unfold get_user_balance, bind, ret.
  by destruct (get_user_by_id_and_name uid nm w) as [[u|] w1].
Qed.

Lemma check_balance_required uid nm m :
  uid = 0 ∨ nm = EmptyString →
  check_balance uid nm m = (false, required_message, None, m).
Proof.
  intros H. unfold check_balance.
  replace ((uid =? 0) || (nm =? EmptyString)%string) with true; [done|].
  symmetry. apply orb_true_iff.
  destruct H as [->| ->]; [by left | by right].
Qed.

Lemma check_balance_looked_up uid nm m :
  uid ≠ 0 → nm ≠ EmptyString →
  check_balance uid nm m =
    (match (get_user_by_id_and_name uid nm (db m)).1 with
     | None => (false, not_found_message uid nm, None)
     | Some u =>
         (true, balance_message nm (get_balance u 0), Some (get_balance u 0))
     end,
     with_db (get_user_by_id_and_name uid nm (db m)).2 m).
Proof.
  intros Hu Hn. unfold check_balance.
  replace ((uid =? 0) || (nm =? EmptyString)%string) with false.
  - unfold bind, call_db, ret. rewrite get_user_balance_run.
    by destruct (get_user_by_id_and_name uid nm (db m)) as [[u|] w1].
  - symmetry. apply orb_false_iff. split.
    + by apply Z.eqb_neq.
    + by apply String.eqb_neq.
Qed.

End CheckBalance.

(** C7.  [check_balance] fails with the invalid-input message, without
    calling the store, when the identifier is falsy (0) or the name is
    empty.  Otherwise it looks the user up by identifier and name: when no
    record is found it fails with the not-found message, and this is the
    case whenever the table holds no row with that identifier and name;
    when a record is found, as it is whenever the table holds such a row
    and the store answers the call, it succeeds with the formatted message
    and the balance.  [get_user_balance] returns the balance field of the record
    found, 0 when the record found has no balance field, and nothing when
    no record is found. *)
Theorem check_balance_outcomes uid nm m :
  (uid = 0 ∨ nm = EmptyString →
     check_balance uid nm m = (false, required_message, None, m)) ∧
  (uid ≠ 0 → nm ≠ EmptyString → ∀ w1,
     get_user_by_id_and_name uid nm (db m) = (None, w1) →
     check_balance uid nm m
       = (false, not_found_message uid nm, None, with_db w1 m)) ∧
  (uid ≠ 0 → nm ≠ EmptyString →
     (∀ r, table (db m) !! uid = Some r → name r ≠ nm) →
     (check_balance uid nm m).1 = (false, not_found_message uid nm, None)) ∧
  (uid ≠ 0 → nm ≠ EmptyString → ∀ u w1,
     get_user_by_id_and_name uid nm (db m) = (Some u, w1) →
     let b := default 0 (balance u.2) in
     check_balance uid nm m
       = (true, balance_message nm b, Some b, with_db w1 m)) ∧
  (uid ≠ 0 → nm ≠ EmptyString → ∀ r,
     table (db m) !! uid = Some r → name r = nm →
     next_raises (db m) = false →
     let b := default 0 (balance r) in
     (check_balance uid nm m).1 = (true, balance_message nm b, Some b)) ∧
  (∀ w u w1 b,
     get_user_by_id_and_name uid nm w = (Some u, w1) →
     balance u.2 = Some b →
     get_user_balance uid nm w = (Some b, w1)) ∧
  (∀ w u w1,
     get_user_by_id_and_name uid nm w = (Some u, w1) →
     balance u.2 = None →
     get_user_balance uid nm w = (Some 0, w1)) ∧
  (∀ w w1,
     get_user_by_id_and_name uid nm w = (None, w1) →
     get_user_balance uid nm w = (None, w1)).
Proof.
  split; [apply check_balance_required|].
  split; [|split; [|split; [|split; [|split; [|split]]]]].
  - intros Hu Hn w1 Hl. rewrite check_balance_looked_up by done. by rewrite Hl.
  - intros Hu Hn Hno. rewrite check_balance_looked_up by done; simpl.
    by rewrite get_user_by_id_and_name_absent.
  - intros Hu Hn u w1 Hl b. rewrite check_balance_looked_up by done.
    by rewrite Hl.
  - intros Hu Hn r Hk Hr Hf b. rewrite check_balance_looked_up by done; simpl.
    by rewrite (get_user_by_id_and_name_present _ _ _ r).
  - intros w u w1 b Hl Hb. rewrite get_user_balance_run, Hl; simpl.
    unfold get_balance. by rewrite Hb.
  - intros w u w1 Hl Hb. rewrite get_user_balance_run, Hl; simpl.
    unfold get_balance. by rewrite Hb.
  - intros w w1 Hl. by rewrite get_user_balance_run, Hl.
Qed.

(** A falsy identifier; a name in the wrong case; A's balance; and a
    record without a balance field, which reads as 0. *)
Lemma check_balance_outcomes_scenario :
  (check_balance 0 "A" scenario).1
    = (false, "User ID and name are required", None) ∧
  (check_balance 1 "a" scenario).1
    = (false, "User with ID 1 and name 'a' not found", None) ∧
  (check_balance 1 "A" scenario).1 = (true, "Balance for A: $100", Some 100) ∧
  (check_balance 3 "C" no_balance_field).1 = (true, "Balance for C: $0", Some 0).
Proof.
  split; [|split; [|split]].
  - refine (f_equal fst (proj1 (check_balance_outcomes 0 "A" scenario) _)).
    by left.
  - refine (f_equal fst
      (proj1 (proj2 (check_balance_outcomes 1 "a" scenario)) _ _
         (get_user_by_id_and_name 1 "a" (db scenario)).2 _));
      (discriminate || reflexivity).
  - refine (f_equal fst
      (proj1 (proj2 (proj2 (proj2 (check_balance_outcomes 1 "A" scenario))))
         _ _ (1, Row "A" "a@bank.example" (Some 100))
         (get_user_by_id_and_name 1 "A" (db scenario)).2 _));
      (discriminate || reflexivity).
  - refine (f_equal fst
      (proj1 (proj2 (proj2 (proj2 (check_balance_outcomes 3 "C" no_balance_field))))
         _ _ (3, Row "C" "c@bank.example" None)
         (get_user_by_id_and_name 3 "C" (db no_balance_field)).2 _));
      (discriminate || reflexivity).
Defined.

(** ** Calls to the store *)

Section Execute.
Implicit Types (q : query) (w : world) (t : gmap Z row).

Lemma execute_answered q w :
  next_raises w = false →
  execute q w =
    (Data (run q (table w)).1,
     {| table := (run q (table w)).2;
        faults := tail (faults w);
        log := log w ++ [q] |}).
Proof.
  unfold execute, next_raises. intros H.
  destruct (head (faults w)) as [[e|]|]; [done| |];
    by destruct (run q (table w)).
Qed.

Lemma execute_raised q w :
  next_raises w = true → ∃ e, execute q w = (Raise e, issued q w).
Proof.
  unfold execute, next_raises, issued. intros H.
  destruct (head (faults w)) as [[e|]|]; [|done..]. by exists e.
Qed.

Lemma answers_next n w : answers (S n) w → next_raises w = false.
Proof.
  unfold answers, next_raises. destruct (faults w) as [|[e|] fs]; simpl; try done.
  by intros [? _]%Forall_cons.
Qed.

Lemma answers_tail n w t lg :
  answers (S n) w →
  answers n {| table := t; faults := tail (faults w); log := lg |}.
Proof.
  unfold answers; simpl. destruct (faults w) as [|f fs]; simpl.
  - intros _. by rewrite take_nil.
  - by intros [_ ?]%Forall_cons.
Qed.

(** The email pre-check finds a row exactly when the email is taken. *)
Lemma select_by_email_empty em t :
  map_to_list (filter (satisfies [EqEmail em]) t) = [] ↔ ¬ email_taken em t.
Proof.
  rewrite map_to_list_empty_iff. split.
  - intros Hall (k & r & Hk & He).
    apply (map_filter_empty_not_lookup _ _ k r Hall); [|done].
    apply satisfies_cons; split; [done | apply satisfies_nil].
  - intros Hno. apply map_empty; intros k. apply map_lookup_filter_None.
    right. intros r Hk [He _]%satisfies_cons. apply Hno. by exists k, r.
Qed.

End Execute.

(** ** Opening an account *)

Section CreateAccount.
Implicit Types (m : manager) (w : world) (t : gmap Z row).

(** The repository's [create_account] when the email is already there:
    it fails, with the conflict message if the pre-check is answered. *)
Lemma db_create_account_taken nm em b w :
  email_taken em (table w) →
  (DatabaseManager.create_account nm em b w).1.1.1 = false ∧
  (DatabaseManager.create_account nm em b w).1.2 = None ∧
  table (DatabaseManager.create_account nm em b w).2 = table w ∧
  (next_raises w = false →
   (DatabaseManager.create_account nm em b w).1.1.2 = exists_message em).
Proof.
  intros Htaken. unfold DatabaseManager.create_account, bind, ret.
  destruct (next_raises w) eqn:Hf.
  - destruct (execute_raised (Select [EqEmail em]) w Hf) as [e ->]. done.
  - rewrite execute_answered by done. simpl.
    destruct (map_to_list (filter (satisfies [EqEmail em]) (table w)))
      as [|u l] eqn:Hsel; [|done].
    by apply select_by_email_empty in Hsel.
Qed.

(** A failed [create_account] has inserted nothing. *)
Lemma db_create_account_failed nm em b w :
  (DatabaseManager.create_account nm em b w).1.1.1 = false →
  table (DatabaseManager.create_account nm em b w).2 = table w.
Proof.
  unfold DatabaseManager.create_account, bind, ret.
  destruct (next_raises w) eqn:Hf.
  { destruct (execute_raised (Select [EqEmail em]) w Hf) as [e ->]. done. }
  rewrite execute_answered by done. simpl.
  destruct (map_to_list (filter (satisfies [EqEmail em]) (table w)))
    as [|u l] eqn:Hsel; [|done].
  match goal with
  | |- context [execute ?q ?w'] =>
      destruct (next_raises w') eqn:Hf';
      [destruct (execute_raised q w' Hf') as [e ->]
      |rewrite (execute_answered q w' Hf')]
  end; done.
Qed.

(** With a free email and a store that answers both calls, the row is
    inserted under the identifier the store assigns. *)
Lemma db_create_account_inserts nm em b w :
  ¬ email_taken em (table w) →
  answers 2 w →
  DatabaseManager.create_account nm em b w =
    (true, created_message nm (next_id (table w)), Some (next_id (table w)),
     {| table := <[next_id (table w) := Row nm em (Some b)]> (table w);
        faults := tail (tail (faults w));
        log := log w ++ [Select [EqEmail em]; Insert nm em b] |}).
Proof.
  intros Hfree Hans. unfold DatabaseManager.create_account, bind, ret.
  rewrite execute_answered by (by eapply answers_next). simpl.
  apply select_by_email_empty in Hfree as ->.
  rewrite execute_answered; simpl.
  - by rewrite <- app_assoc.
  - eapply answers_next. by apply answers_tail.
Qed.

Lemma create_account_validated nm em b m :
  nm ≠ EmptyString → em ≠ EmptyString → contains "@" em = true → 0 ≤ b →
  create_account nm em b m =
    call_db (DatabaseManager.create_account nm em b) m.
Proof.
  intros Hn He Hat Hb. unfold create_account.
  rewrite (proj2 (String.eqb_neq nm EmptyString)) by done.
  rewrite (proj2 (String.eqb_neq em EmptyString)) by done.
  rewrite Hat; simpl. by rewrite (proj2 (Z.ltb_ge b 0)).
Qed.

Lemma create_account_rejected nm em b m :
  nm = EmptyString ∨ em = EmptyString ∨ contains "@" em = false ∨ b < 0 →
  (create_account nm em b m).2 = m ∧
  (create_account nm em b m).1.1.1 = false ∧
  (create_account nm em b m).1.2 = None.
Proof.
  intros H. unfold create_account, ret.
  destruct (nm =? EmptyString)%string eqn:Hn; [done|].
  destruct (em =? EmptyString)%string eqn:He; [done|].
  destruct (contains "@" em) eqn:Hat; [|done].
  destruct (b <? 0) eqn:Hb; [done|]. exfalso.
  apply String.eqb_neq in Hn, He. apply Z.ltb_ge in Hb.
  destruct H as [?|[?|[?|?]]]; done || lia.
Qed.

Lemma call_db_run {A} (c : M world A) m :
  call_db c m = ((c (db m)).1, with_db (c (db m)).2 m).
Proof. unfold call_db. by destruct (c (db m)). Qed.

End CreateAccount.

(** C5, as amended.  [create_account] fails, with no row inserted and no
    identifier returned, when the name or the email is empty, when the
    email does not contain ['@'], when the initial balance is negative
    (each with its message and without calling the store), or when a row
    with the same email already exists.  Otherwise, when the store answers
    the email pre-check and the insert, it inserts one row, with the name,
    email and balance given, and returns success with the identifier the
    store assigned.  Whenever it fails, the table is as before. *)
Theorem create_account_outcomes nm em b m :
  let out := create_account nm em b m in
  (nm = EmptyString ∨ em = EmptyString →
     out = (false, name_email_message, None, m)) ∧
  (nm ≠ EmptyString → em ≠ EmptyString → contains "@" em = false →
     out = (false, email_format_message, None, m)) ∧
  (nm ≠ EmptyString → em ≠ EmptyString → contains "@" em = true → b < 0 →
     out = (false, negative_message, None, m)) ∧
  (email_taken em (table (db m)) →
     out.1.1.1 = false ∧ out.1.2 = None ∧ table (db out.2) = table (db m)) ∧
  (nm ≠ EmptyString → em ≠ EmptyString → contains "@" em = true → 0 ≤ b →
   ¬ email_taken em (table (db m)) →
   answers 2 (db m) →
     let k := next_id (table (db m)) in
     out.1 = (true, created_message nm k, Some k) ∧
     table (db m) !! k = None ∧
     table (db out.2) = <[k := Row nm em (Some b)]> (table (db m)) ∧
     size (table (db out.2)) = S (size (table (db m)))) ∧
  (out.1.1.1 = false → table (db out.2) = table (db m)).
Proof.
  intros out. subst out.
  split; [|split; [|split; [|split; [|split]]]].
  - intros H. unfold create_account, ret.
    destruct H as [->| ->]; [done|]. by rewrite orb_true_r.
  - intros Hn He Hat. unfold create_account, ret.
    rewrite (proj2 (String.eqb_neq nm EmptyString)) by done.
    rewrite (proj2 (String.eqb_neq em EmptyString)) by done.
    by rewrite Hat.
  - intros Hn He Hat Hb. unfold create_account, ret.
    rewrite (proj2 (String.eqb_neq nm EmptyString)) by done.
    rewrite (proj2 (String.eqb_neq em EmptyString)) by done.
    rewrite Hat; simpl. by rewrite (proj2 (Z.ltb_lt b 0)).
  - intros Htaken.
    destruct (decide (nm = EmptyString ∨ em = EmptyString ∨
                      contains "@" em = false ∨ b < 0)) as [Hrej|Hok].
    + destruct (create_account_rejected nm em b m Hrej) as (-> & ? & ?). done.
    + rewrite create_account_validated, call_db_run; simpl.
      * by destruct (db_create_account_taken nm em b (db m) Htaken)
          as (? & ? & ? & _).
      * intros ->. apply Hok. by left.
      * intros ->. apply Hok. right. by left.
      * destruct (contains "@" em) eqn:E; [done|]. destruct Hok. tauto.
      * destruct (Z_lt_le_dec b 0); [|done]. destruct Hok. tauto.
  - intros Hn He Hat Hb Hfree Hans k.
    rewrite create_account_validated, call_db_run by done.
    rewrite db_create_account_inserts by done; simpl.
    pose proof (next_id_fresh (table (db m))) as Hfresh.
    split; [done|]. split; [done|]. split; [done|].
    by apply map_size_insert_None.
  - intros Hfail.
    destruct (decide (nm = EmptyString ∨ em = EmptyString ∨
                      contains "@" em = false ∨ b < 0)) as [Hrej|Hok].
    + by destruct (create_account_rejected nm em b m Hrej) as (-> & _).
    + revert Hfail. rewrite create_account_validated, call_db_run; simpl.
      * apply db_create_account_failed.
      * intros ->. apply Hok. by left.
      * intros ->. apply Hok. right. by left.
      * destruct (contains "@" em) eqn:E; [done|]. destruct Hok. tauto.
      * destruct (Z_lt_le_dec b 0); [|done]. destruct Hok. tauto.
Qed.

(** No row of the scenario has the email of the account to come. *)
Lemma scenario_email_free : ¬ email_taken "c@bank.example" scenario_table.
Proof. apply select_by_email_empty. reflexivity. Qed.

(** A third account with balance 5 on the scenario's table gets the
    identifier 3. *)
Lemma create_account_outcomes_scenario :
  (create_account "C" "c@bank.example" 5 scenario).1
    = (true, "Account created successfully for C with ID 3", Some 3) ∧
  table (db (create_account "C" "c@bank.example" 5 scenario).2)
    = <[3 := Row "C" "c@bank.example" (Some 5)]> scenario_table.
Proof.
  destruct (proj1 (proj2 (proj2 (proj2 (proj2
    (create_account_outcomes "C" "c@bank.example" 5 scenario))))))
    as (H1 & _ & H2 & _).
  - discriminate.
  - discriminate.
  - reflexivity.
  - discriminate.
  - exact scenario_email_free.
  - repeat constructor.
  - split; [exact H1 | exact H2].
Defined.

(** C5 as stated fails when the store raises: the name and the email are
    filled in, the email has its ['@'], the balance is not negative, no row
    has the email, and yet no row is inserted and the call fails. *)
Lemma create_account_fails_when_insert_raises :
  "C" ≠ EmptyString ∧ "c@bank.example" ≠ EmptyString ∧
  contains "@" "c@bank.example" = true ∧ 0 ≤ 5 ∧
  ¬ email_taken "c@bank.example" (table (db insert_raises)) ∧
  create_account "C" "c@bank.example" 5 insert_raises
    = (false, "Error creating account: connection lost", None,
       {| db := {| table := scenario_table;
                   faults := [];
                   log := [Select [EqEmail "c@bank.example"];
                           Insert "C" "c@bank.example" 5] |};
          transactions := [] |}).
Proof.
  split; [done|]. split; [done|]. split; [done|]. split; [done|].
  split; [exact scenario_email_free | reflexivity].
Qed.

(** ** Closing an account *)

Section DeleteAccount.
Implicit Types (m : manager) (w : world) (u : user).

(** The repository's [delete_account]: a failure leaves the table as it
    was; a success has found the row and removed it, and its message
    carries the name found. *)
Lemma db_delete_account_run uid w :
  let out := DatabaseManager.delete_account uid w in
  (out.1.1 = false ∧ table out.2 = table w) ∨
  (∃ r, table w !! uid = Some r ∧
        out.1 = (true, deleted_message (name r) uid) ∧
        table out.2 = delete uid (table w)).
Proof.
  unfold DatabaseManager.delete_account, bind, ret.
  rewrite get_user_by_id_run; simpl.
  destruct (next_raises w); [by left|].
  destruct (table w !! uid) as [r|] eqn:Hk; simpl; [|by left].
  match goal with
  | |- context [execute ?q ?w'] =>
      destruct (next_raises w') eqn:Hf';
      [destruct (execute_raised q w' Hf') as [e ->]
      |rewrite (execute_answered q w' Hf')]
  end; simpl; [by left|].
  right. exists r. by rewrite delete_by_id.
Qed.

Lemma db_delete_account_deletes uid w r :
  table w !! uid = Some r →
  answers 2 w →
  DatabaseManager.delete_account uid w =
    (true, deleted_message (name r) uid,
     {| table := delete uid (table w);
        faults := tail (tail (faults w));
        log := log w ++ [Select [EqId uid]; Delete [EqId uid]] |}).
Proof.
  intros Hk Hans. unfold DatabaseManager.delete_account, bind, ret.
  rewrite get_user_by_id_run; simpl.
  rewrite (answers_next 1 w Hans), Hk; simpl.
  rewrite execute_answered; simpl.
  - by rewrite delete_by_id, <- app_assoc.
  - eapply answers_next. by apply (answers_tail 1 w).
Qed.

Lemma delete_account_looked_up uid cn m :
  uid ≠ 0 →
  delete_account uid cn m =
    match get_user_by_id uid (db m) with
    | (None, w1) => (false, no_user_message uid, with_db w1 m)
    | (Some u, w1) =>
        if (get_name u =? cn)%string
        then call_db (DatabaseManager.delete_account uid) (with_db w1 m)
        else (false, confirmation_message, with_db w1 m)
    end.
Proof.
  intros Hu. unfold delete_account, bind, call_db at 1, ret.
  rewrite (proj2 (Z.eqb_neq uid 0)) by done.
  destruct (get_user_by_id uid (db m)) as [[u|] w1]; [|done].
  by destruct (get_name u =? cn)%string.
Qed.

End DeleteAccount.

(** C6.  [delete_account] fails when the identifier is falsy (0), fails
    with the not-found message when no user with that identifier is found,
    and fails with the name-confirmation message when the name of the user
    found differs from the confirmation name, strings being compared
    exactly; a row whose stored name differs is never deleted.  Every
    failure leaves the table as it was.  A success has
    removed the row with that identifier and no other, the name stored in
    that row was the confirmation name, and the message carries that
    name.  A row with the right name is deleted when the store answers. *)
Theorem delete_account_outcomes uid cn m :
  let out := delete_account uid cn m in
  (uid = 0 → out = (false, id_required_message, m)) ∧
  (uid ≠ 0 → ∀ w1,
     get_user_by_id uid (db m) = (None, w1) →
     out = (false, no_user_message uid, with_db w1 m)) ∧
  (uid ≠ 0 → table (db m) !! uid = None →
     out.1 = (false, no_user_message uid)) ∧
  (uid ≠ 0 → ∀ u w1,
     get_user_by_id uid (db m) = (Some u, w1) →
     get_name u ≠ cn →
     out = (false, confirmation_message, with_db w1 m)) ∧
  (uid ≠ 0 → ∀ r,
     table (db m) !! uid = Some r → name r ≠ cn →
     out.1.1 = false ∧
     (next_raises (db m) = false → out.1.2 = confirmation_message)) ∧
  (out.1.1 = false → table (db out.2) = table (db m)) ∧
  (out.1.1 = true →
     ∃ r, table (db m) !! uid = Some r ∧
          name r = cn ∧
          out.1.2 = deleted_message (name r) uid ∧
          table (db out.2) = delete uid (table (db m))) ∧
  (∀ r, uid ≠ 0 → table (db m) !! uid = Some r → name r = cn →
        answers 3 (db m) →
        out.1 = (true, deleted_message cn uid) ∧
        table (db out.2) = delete uid (table (db m))).
Proof.
  intros out. subst out.
  split; [by intros ->|].
  split; [|split; [|split; [|split; [|split; [|split]]]]].
  - intros Hu w1 Hl. by rewrite delete_account_looked_up, Hl.
  - intros Hu Hk. rewrite delete_account_looked_up by done.
    rewrite get_user_by_id_run, Hk. by destruct (next_raises (db m)).
  - intros Hu u w1 Hl Hn. rewrite delete_account_looked_up, Hl by done.
    by rewrite (proj2 (String.eqb_neq (get_name u) cn)).
  - intros Hu r Hk Hn. rewrite delete_account_looked_up by done.
    rewrite get_user_by_id_run, Hk.
    destruct (next_raises (db m)); simpl; [done|].
    unfold get_name; simpl.
    by rewrite (proj2 (String.eqb_neq (name r) cn)).
  - destruct (decide (uid = 0)) as [->|Hu]; [done|].
    rewrite delete_account_looked_up by done.
    destruct (get_user_by_id uid (db m)) as [[u|] w1] eqn:Hl.
    2: { apply get_user_by_id_world in Hl as ->. done. }
    apply get_user_by_id_world in Hl as ->.
    destruct (get_name u =? cn)%string; [|done].
    rewrite call_db_run; simpl.
    destruct (db_delete_account_run uid
                (issued (Select [EqId uid]) (db m))) as [[_ Ht]|(r & _ & Hr & _)].
    + done.
    + rewrite Hr. done.
  - destruct (decide (uid = 0)) as [->|Hu]; [done|].
    rewrite delete_account_looked_up by done.
    destruct (get_user_by_id uid (db m)) as [[u|] w1] eqn:Hl; [|done].
    apply get_user_by_id_Some in Hl as Hrow. destruct Hrow as [_ Hrow].
    apply get_user_by_id_world in Hl as ->.
    destruct (get_name u =? cn)%string eqn:Hn; [|done].
    apply String.eqb_eq in Hn.
    rewrite call_db_run; simpl.
    destruct (db_delete_account_run uid
                (issued (Select [EqId uid]) (db m)))
      as [[Hf _]|(r & Hk & Hr & Ht)].
    + rewrite Hf. done.
    + intros _. exists r. simpl in Hk.
      assert (r = u.2) as -> by congruence.
      rewrite Hr, Ht. done.
  - intros r Hu Hk <- Hans. rewrite delete_account_looked_up by done.
    rewrite get_user_by_id_run, (answers_next 2 _ Hans), Hk; simpl.
    unfold get_name; simpl. rewrite String.eqb_refl, call_db_run; simpl.
    rewrite (db_delete_account_deletes uid _ r); [done|done|].
    by apply (answers_tail 2 (db m)).
Qed.

(** B's account is closed on the name "B", and kept on the name "b". *)
Lemma delete_account_outcomes_scenario :
  (delete_account 2 "B" scenario).1
    = (true, "Account for B (ID: 2) deleted successfully") ∧
  table (db (delete_account 2 "B" scenario).2) = delete 2 scenario_table ∧
  delete_account 2 "b" scenario
    = (false, "Name confirmation failed. Account not deleted.",
       {| db := {| table := scenario_table; faults := [];
                   log := [Select [EqId 2]] |};
          transactions := [] |}).
Proof.
  pose proof (delete_account_outcomes 2 "B" scenario) as HB.
  pose proof (delete_account_outcomes 2 "b" scenario) as Hb.
  cbv zeta in HB, Hb.
  destruct HB as (_ & _ & _ & _ & _ & _ & _ & HB).
  destruct Hb as (_ & _ & _ & Hb & _).
  destruct (HB (Row "B" "b@bank.example" (Some 0))) as [H1 H2].
  - discriminate.
  - reflexivity.
  - reflexivity.
  - constructor.
  - split; [exact H1|]. split; [exact H2|].
    refine (Hb _ (2, Row "B" "b@bank.example" (Some 0))
              (get_user_by_id 2 (db scenario)).2 _ _);
      (discriminate || reflexivity).
Defined.

(** ** What an operation leaves behind *)

Section Frames.
Implicit Types (m : manager) (w : world) (t : gmap Z row).

Lemma with_db_same m : with_db (db m) m = m.
Proof. by destruct m. Qed.

Lemma check_balance_state uid nm m :
  ∃ w', (check_balance uid nm m).2 = with_db w' m ∧ table w' = table (db m).
Proof.
  destruct (decide (uid = 0 ∨ nm = EmptyString)) as [H|H].
  - rewrite check_balance_required by done. exists (db m).
    by rewrite with_db_same.
  - rewrite check_balance_looked_up by tauto. simpl.
    eexists; split; [done|].
    by rewrite get_user_by_id_and_name_run.
Qed.

Lemma db_create_account_table nm em b w :
  table (DatabaseManager.create_account nm em b w).2 = table w ∨
  table (DatabaseManager.create_account nm em b w).2
    = <[next_id (table w) := Row nm em (Some b)]> (table w).
Proof.
  unfold DatabaseManager.create_account, bind, ret.
  destruct (next_raises w) eqn:Hf.
  { destruct (execute_raised (Select [EqEmail em]) w Hf) as [e ->]. by left. }
  rewrite execute_answered by done. simpl.
  destruct (map_to_list (filter (satisfies [EqEmail em]) (table w)))
    as [|u l] eqn:Hsel; [|by left].
  match goal with
  | |- context [execute ?q ?w'] =>
      destruct (next_raises w') eqn:Hf';
      [destruct (execute_raised q w' Hf') as [e ->]
      |rewrite (execute_answered q w' Hf')]
  end; simpl; [by left | by right].
Qed.

Lemma create_account_state nm em b m :
  ∃ w', (create_account nm em b m).2 = with_db w' m ∧
        (table w' = table (db m) ∨
         0 ≤ b ∧
         table w' = <[next_id (table (db m)) := Row nm em (Some b)]> (table (db m))).
Proof.
  destruct (decide (nm = EmptyString ∨ em = EmptyString ∨
                    contains "@" em = false ∨ b < 0)) as [Hrej|Hok].
  - destruct (create_account_rejected nm em b m Hrej) as (-> & _).
    exists (db m). rewrite with_db_same. by split; [|left].
  - assert (0 ≤ b) as Hb by (destruct (Z_lt_le_dec b 0); [|done]; tauto).
    rewrite create_account_validated, call_db_run; simpl.
    + eexists; split; [done|].
      destruct (db_create_account_table nm em b (db m)) as [->| ->]; auto.
    + intros ->. apply Hok. by left.
    + intros ->. apply Hok. right. by left.
    + destruct (contains "@" em) eqn:E; [done|]. destruct Hok. tauto.
    + done.
Qed.

Lemma delete_account_state uid cn m :
  ∃ w', (delete_account uid cn m).2 = with_db w' m ∧
        (table w' = table (db m) ∨ table w' = delete uid (table (db m))).
Proof.
  destruct (decide (uid = 0)) as [->|Hu].
  { exists (db m). rewrite with_db_same. by split; [|left]. }
  rewrite delete_account_looked_up by done.
  rewrite get_user_by_id_run.
  destruct (next_raises (db m)); [eexists; split; [done | by left]|].
  destruct (table (db m) !! uid) as [r|]; simpl;
    [|eexists; split; [done | by left]].
  destruct (get_name (uid, r) =? cn)%string; simpl;
    [|eexists; split; [done | by left]].
  rewrite call_db_run; simpl. eexists; split; [done|].
  destruct (db_delete_account_run uid (issued (Select [EqId uid]) (db m)))
    as [[_ ->]|(x & _ & _ & ->)]; auto.
Qed.

End Frames.

(** ** Balances stay non-negative *)

Section Nonneg.
Implicit Types (m : manager) (w : world) (t : gmap Z row).

Lemma balances_nonneg_empty : balances_nonneg ∅.
Proof. intros k r b Hk. by rewrite lookup_empty in Hk. Qed.

Lemma balances_nonneg_insert t k x :
  balances_nonneg t →
  (∀ b, balance x = Some b → 0 ≤ b) →
  balances_nonneg (<[k := x]> t).
Proof.
  intros Ht Hx j r b Hj Hb. apply lookup_insert_Some in Hj as [[_ <-]|[_ Hj]].
  - by apply Hx.
  - by apply (Ht j r b).
Qed.

Lemma balances_nonneg_delete t k :
  balances_nonneg t → balances_nonneg (delete k t).
Proof.
  intros Ht j r b Hj Hb. apply lookup_delete_Some in Hj as [_ Hj].
  by apply (Ht j r b).
Qed.

Lemma update_balance_nonneg k b w :
  balances_nonneg (table w) → 0 ≤ b →
  balances_nonneg (table (update_balance k b w).2).
Proof.
  intros Ht Hb. rewrite update_balance_run.
  destruct (next_raises w); [done|].
  destruct (table w !! k) as [r|]; [|done]. simpl.
  apply balances_nonneg_insert; [done|]. simpl. by intros ? [= <-].
Qed.

Lemma found_balance_nonneg k w u w1 :
  balances_nonneg (table w) →
  get_user_by_id k w = (Some u, w1) →
  0 ≤ get_balance u 0.
Proof.
  intros Ht [_ Hk]%get_user_by_id_Some. unfold get_balance.
  destruct (balance u.2) as [b|] eqn:Hb; simpl; [|done].
  by apply (Ht k u.2 b).
Qed.

Lemma transfer_funds_nonneg sid sn rid a m :
  balances_nonneg (table (db m)) →
  balances_nonneg (table (db (transfer_funds sid sn rid a m).2)).
Proof.
  intros Ht.
  destruct (transfer_funds_run sid sn rid a m)
    as [Ha | w1 Ha Hs | s w1 w2 Ha Hs Hr | s r w1 w2 Ha Hs Hr Hb
       | s r w1 w2 w3 Ha Hs Hr Hb Hw1
       | s r w1 w2 w3 w4 restored w5 Ha Hs Hr Hb Hw1 Hw2 Hw3
       | s r w1 w2 w3 w4 Ha Hs Hr Hb Hw1 Hw2]; simpl; [done|..].
  all: assert (balances_nonneg (table w1)) as Ht1
         by (apply get_user_by_id_and_name_world in Hs as ->; done);
       try done.
  all: assert (balances_nonneg (table w2)) as Ht2
         by (pose proof Hr as Hw; apply get_user_by_id_world in Hw as ->; done);
       try done.
  all: assert (0 ≤ get_balance r 0) as Hrb
         by (by eapply (found_balance_nonneg rid w1); [|exact Hr]).
  all: pose proof (update_balance_nonneg sid (get_balance s 0 - a) w2 Ht2
                     ltac:(lia)) as Ht3; rewrite Hw1 in Ht3; simpl in Ht3;
       try done.
  all: pose proof (update_balance_nonneg rid (get_balance r 0 + a) w3 Ht3
                     ltac:(lia)) as Ht4; rewrite Hw2 in Ht4; simpl in Ht4;
       try done.
  pose proof (update_balance_nonneg sid (get_balance s 0) w4 Ht4
                ltac:(lia)) as Ht5. by rewrite Hw3 in Ht5.
Qed.

Lemma step_nonneg o m :
  balances_nonneg (table (db m)) → balances_nonneg (table (db (step o m))).
Proof.
  intros Ht. destruct o as [uid nm | sid sn rid a | nm em b | uid cn | ]; simpl.
  - destruct (check_balance_state uid nm m) as (w' & -> & Hw). simpl.
    by rewrite Hw.
  - by apply transfer_funds_nonneg.
  - destruct (create_account_state nm em b m) as (w' & -> & [Hw|[Hb Hw]]);
      simpl; rewrite Hw; [done|].
    apply balances_nonneg_insert; [done|]. simpl. by intros ? [= <-].
  - destruct (delete_account_state uid cn m) as (w' & -> & [Hw|Hw]);
      simpl; rewrite Hw; [done|].
    by apply balances_nonneg_delete.
  - done.
Qed.

End Nonneg.

(** C8.  From a store in which every balance is non-negative, every
    operation of the transfer service ([check_balance], [transfer_funds],
    [create_account], [delete_account], and reading the history) leaves a
    store in which every balance is non-negative, whatever the store
    answers; and so does every sequence of operations.  [transfer_funds]
    deducts only when the sender holds at least the amount and adds only a
    positive amount; [create_account] refuses a negative balance. *)
Theorem operations_keep_balances_nonneg os m :
  balances_nonneg (table (db m)) →
  balances_nonneg (table (db (steps os m))) ∧
  (∀ o, balances_nonneg (table (db (step o m)))) ∧
  (∀ sid sn rid a,
     (transfer_funds sid sn rid a m).1.1 = true →
     0 < a ∧ ∃ b, stored_balance sid (table (db m)) = Some b ∧ a ≤ b) ∧
  (∀ nm em b, (create_account nm em b m).1.1.1 = true → 0 ≤ b).
Proof.
  intros Ht. split; [|split; [|split]].
  - revert m Ht. induction os as [|o os IH]; intros m Ht; [done|].
    simpl. apply IH. by apply step_nonneg.
  - intros o. by apply step_nonneg.
  - intros sid sn rid a.
    destruct (transfer_funds_run sid sn rid a m)
      as [Ha | w1 Ha Hs | s w1 w2 Ha Hs Hr | s r w1 w2 Ha Hs Hr Hb
         | s r w1 w2 w3 Ha Hs Hr Hb Hw1
         | s r w1 w2 w3 w4 restored w5 Ha Hs Hr Hb Hw1 Hw2 Hw3
         | s r w1 w2 w3 w4 Ha Hs Hr Hb Hw1 Hw2]; simpl; try done.
    intros _. split; [done|]. exists (get_balance s 0). split; [|done].
    by destruct (sender_balance_on_record _ _ _ _ _ _ Hs Ha Hb).
  - intros nm em b.
    destruct (Z_lt_le_dec b 0) as [Hb|Hb]; [|done].
    destruct (create_account_rejected nm em b m) as (_ & -> & _); [|done].
    tauto.
Qed.

(** The balances of the scenario, 100 and 0, are non-negative. *)
Lemma scenario_nonneg : balances_nonneg scenario_table.
Proof.
  repeat (apply balances_nonneg_insert; [|simpl; intros ? [= <-]; done]).
  apply balances_nonneg_empty.
Qed.

(** A transfer, a refused transfer, a new account, a closed account and an
    enquiry on the scenario's table. *)
Lemma operations_keep_balances_nonneg_scenario :
  balances_nonneg
    (table (db (steps [TransferFunds 1 "A" 2 40; TransferFunds 1 "A" 2 999;
                       CreateAccount "C" "c@bank.example" 5;
                       DeleteAccount 2 "B"; CheckBalance 1 "A"] scenario))).
Proof.
  exact (proj1 (operations_keep_balances_nonneg _ scenario scenario_nonneg)).
Defined.

(** ** The ledger *)

Section Ledger.
Implicit Types (m : manager) (w : world) (x : transaction).

(** A transfer that fails leaves the ledger alone; one that succeeds adds
    one record at the end, and that record is well formed. *)
Lemma transfer_funds_ledger sid sn rid a m :
  let out := transfer_funds sid sn rid a m in
  (out.1.1 = false ∧ transactions out.2 = transactions m) ∨
  (out.1.1 = true ∧
   ∃ x, transactions out.2 = transactions m ++ [x] ∧
        record_ok x ∧ amount x = a ∧
        sender_id x = sid ∧ sender_name x = sn ∧ receiver_id x = rid).
Proof.
  destruct (transfer_funds_run sid sn rid a m)
    as [Ha | w1 Ha Hs | s w1 w2 Ha Hs Hr | s r w1 w2 Ha Hs Hr Hb
       | s r w1 w2 w3 Ha Hs Hr Hb Hw1
       | s r w1 w2 w3 w4 restored w5 Ha Hs Hr Hb Hw1 Hw2 Hw3
       | s r w1 w2 w3 w4 Ha Hs Hr Hb Hw1 Hw2]; simpl; try by left.
  right. split; [done|]. eexists; split; [done|].
  apply get_user_by_id_Some in Hr as [Hid _].
  unfold record_ok; simpl. repeat split; try done; lia.
Qed.

Lemma step_ledger o m :
  transactions (step o m) = transactions m ∨
  ∃ sid sn rid a x,
    o = TransferFunds sid sn rid a ∧
    (transfer_funds sid sn rid a m).1.1 = true ∧
    transactions (step o m) = transactions m ++ [x] ∧
    record_ok x.
Proof.
  destruct o as [uid nm | sid sn rid a | nm em b | uid cn | ]; simpl.
  - destruct (check_balance_state uid nm m) as (w' & -> & _). by left.
  - destruct (transfer_funds_ledger sid sn rid a m)
      as [[_ H]|(Hok & x & H & Hx & _)]; [by left|].
    right. by exists sid, sn, rid, a, x.
  - destruct (create_account_state nm em b m) as (w' & -> & _). by left.
  - destruct (delete_account_state uid cn m) as (w' & -> & _). by left.
  - by left.
Qed.

Lemma steps_ledger_prefix os m :
  transactions m `prefix_of` transactions (steps os m).
Proof.
  revert m. induction os as [|o os IH]; intros m; [done|]. simpl.
  etrans; [|apply IH].
  destruct (step_ledger o m) as [->|(? & ? & ? & ? & x & _ & _ & -> & _)];
    [done|]. by apply prefix_app_r.
Qed.

Lemma steps_ledger_ok os m :
  Forall record_ok (transactions m) →
  Forall record_ok (transactions (steps os m)).
Proof.
  revert m. induction os as [|o os IH]; intros m Hm; [done|]. simpl.
  apply IH.
  destruct (step_ledger o m) as [->|(? & ? & ? & ? & x & _ & _ & -> & Hx)];
    [done|]. apply Forall_app. split; [done|]. by constructor.
Qed.

End Ledger.

(** C10.  The ledger only grows, and only at its end.  An operation other
    than a successful [transfer_funds] leaves it as it was; a successful
    [transfer_funds] adds exactly one record after those already there.
    Over any sequence of operations the ledger before is a prefix of the
    ledger after, so no entry is changed or removed, and
    [get_transaction_history] returns the ledger as it stands, in the order
    of appending, without touching the state.  From an empty ledger, every
    record satisfies [sender_balance_after = sender_balance_before - amount],
    [receiver_balance_after = receiver_balance_before + amount],
    [amount > 0] and [sender_balance_after >= 0]. *)
Theorem ledger_append_only :
  (∀ o m,
     transactions (step o m) = transactions m ∨
     ∃ sid sn rid a x,
       o = TransferFunds sid sn rid a ∧
       (transfer_funds sid sn rid a m).1.1 = true ∧
       transactions (step o m) = transactions m ++ [x] ∧
       record_ok x) ∧
  (∀ sid sn rid a m,
     (transfer_funds sid sn rid a m).1.1 = false →
     transactions (transfer_funds sid sn rid a m).2 = transactions m) ∧
  (∀ sid sn rid a m,
     (transfer_funds sid sn rid a m).1.1 = true →
     ∃ x, transactions (transfer_funds sid sn rid a m).2
            = transactions m ++ [x] ∧
          amount x = a) ∧
  (∀ os m, transactions m `prefix_of` transactions (steps os m)) ∧
  (∀ m, get_transaction_history m = (transactions m, m)) ∧
  (∀ os m, Forall record_ok (transactions m) →
           Forall record_ok (transactions (steps os m))) ∧
  (∀ os w, Forall record_ok (transactions (steps os (init w)))).
Proof.
  split; [apply step_ledger|].
  split; [|split; [|split; [|split; [|split]]]].
  - intros sid sn rid a m Hf.
    destruct (transfer_funds_ledger sid sn rid a m) as [[_ H]|[Hok _]];
      [done | congruence].
  - intros sid sn rid a m Hs.
    destruct (transfer_funds_ledger sid sn rid a m)
      as [[Hf _]|(_ & x & H & _ & Ha & _)]; [congruence|]. by exists x.
  - apply steps_ledger_prefix.
  - done.
  - apply steps_ledger_ok.
  - intros os w. apply steps_ledger_ok. constructor.
Qed.

(** The scenario: 40 from A to B, a refused 999, a closed account and an
    enquiry leave one record in the ledger. *)
Lemma ledger_append_only_scenario :
  (get_transaction_history
     (steps [TransferFunds 1 "A" 2 40; TransferFunds 1 "A" 2 999;
             DeleteAccount 2 "B"; CheckBalance 1 "A"] scenario)).1
    = [{| sender_id := 1; sender_name := "A";
          receiver_id := 2; receiver_name := "B";
          amount := 40;
          sender_balance_before := 100; sender_balance_after := 60;
          receiver_balance_before := 0; receiver_balance_after := 40 |}] ∧
  Forall record_ok
    (transactions
       (steps [TransferFunds 1 "A" 2 40; TransferFunds 1 "A" 2 999;
               DeleteAccount 2 "B"; CheckBalance 1 "A"] scenario)).
Proof.
  split.
  - rewrite (proj1 (proj2 (proj2 (proj2 (proj2 ledger_append_only))))).
    reflexivity.
  - apply (proj2 (proj2 (proj2 (proj2 (proj2 (proj2 ledger_append_only)))))).
Defined.

(** * The scenarios of the specification, run from an empty store *)

(** A is created with 100 and B with 0; 40 go from A to B; then 999 are
    asked of A's 60 and refused. *)
Example scenario_from_empty_store :
  let m1 := steps [CreateAccount "A" "a@bank.example" 100;
                   CreateAccount "B" "b@bank.example" 0] empty_store in
  let t := transfer_funds 1 "A" 2 40 m1 in
  let t' := transfer_funds 1 "A" 2 999 t.2 in
  t.1 = (true, "Successfully transferred $40 from A to B") ∧
  stored_balance 1 (table (db t.2)) = Some 60 ∧
  stored_balance 2 (table (db t.2)) = Some 40 ∧
  transactions t.2
    = [{| sender_id := 1; sender_name := "A";
          receiver_id := 2; receiver_name := "B";
          amount := 40;
          sender_balance_before := 100; sender_balance_after := 60;
          receiver_balance_before := 0; receiver_balance_after := 40 |}] ∧
  t'.1 = (false, "Insufficient balance. Current balance: $60, Required: $999") ∧
  contains "Insufficient balance" t'.1.2 = true ∧
  table (db t'.2) = table (db t.2) ∧
  transactions t'.2 = transactions t.2.
Proof. vm_compute. repeat split. Qed.

(** Emails are compared exactly: a second account may differ from the
    first in the case of a letter only, and the same email is refused. *)
Example create_account_email_is_case_sensitive :
  (create_account "A2" "A@bank.example" 0 scenario).1.1.1 = true ∧
  (create_account "A2" "a@bank.example" 0 scenario).1
    = (false, "Email a@bank.example already exists", None) ∧
  (create_account "A2" "a.bank.example" 0 scenario).1
    = (false, "Invalid email format", None) ∧
  (create_account "A2" "a2@bank.example" (-1) scenario).1
    = (false, "Initial balance cannot be negative", None).
Proof. vm_compute. repeat split. Qed.

(** * Further properties of the repository *)

Section Listing.
Implicit Types (w : world) (t : gmap Z row).

Lemma select_all t : map_to_list (filter (satisfies []) t) = map_to_list t.
Proof. f_equal. apply map_filter_id. intros i x _. apply satisfies_nil. Qed.

Lemma get_all_users_run w :
  get_all_users w =
    (if next_raises w then [] else map_to_list (table w), issued (Select []) w).
Proof.
  unfold get_all_users, bind, ret. destruct (next_raises w) eqn:Hf.
  - by destruct (execute_raised (Select []) w Hf) as [e ->].
  - rewrite execute_answered by done. simpl. by rewrite select_all.
Qed.

End Listing.

(** [get_all_users] never changes the table and issues one unfiltered
    select.  When the store answers, it returns every row of the table
    exactly once; when the store raises, it returns the empty list, so an
    empty result means either an empty table or a failed call. *)
Theorem get_all_users_lists_the_table w :
  (get_all_users w).2 = issued (Select []) w ∧
  (next_raises w = true → (get_all_users w).1 = []) ∧
  (next_raises w = false →
     NoDup (get_all_users w).1 ∧
     length (get_all_users w).1 = size (table w) ∧
     ∀ k r, (k, r) ∈ (get_all_users w).1 ↔ table w !! k = Some r) ∧
  ((get_all_users w).1 = [] ↔ next_raises w = true ∨ table w = ∅).
Proof.
  rewrite get_all_users_run. simpl. split; [done|].
  destruct (next_raises w).
  - split; [done|]. split; [done|]. split; auto.
  - split; [done|]. split.
    + intros _. split; [apply NoDup_map_to_list|].
      split; [apply length_map_to_list|]. intros k r. apply elem_of_map_to_list.
    + split; [intros H%map_to_list_empty_iff; auto|].
      intros [?| ->]; [done | apply map_to_list_empty].
Qed.

(** The lookup by identifier and name finds exactly the record the lookup
    by identifier finds, when that record's name is the name asked for, and
    nothing otherwise; names are compared exactly.  Neither lookup changes
    the table, and a record found carries the identifier asked for. *)
Theorem lookup_by_name_narrows_lookup_by_id k n w :
  (get_user_by_id_and_name k n w).1 = (get_user_by_id k w).1 ≫= named n ∧
  table (get_user_by_id_and_name k n w).2 = table w ∧
  table (get_user_by_id k w).2 = table w ∧
  (∀ u, (get_user_by_id k w).1 = Some u →
        get_id u = k ∧ table w !! k = Some u.2) ∧
  (∀ u, (get_user_by_id_and_name k n w).1 = Some u →
        get_id u = k ∧ get_name u = n ∧ (get_user_by_id k w).1 = Some u).
Proof.
  rewrite get_user_by_id_and_name_run, get_user_by_id_run. simpl.
  split; [|split; [done|split; [done|split]]].
  - destruct (next_raises w); [done|].
    destruct (table w !! k) as [r|]; [|done]. simpl. unfold named, get_name.
    simpl. by repeat case_decide.
  - intros u Hu. destruct (next_raises w); [done|].
    destruct (table w !! k) as [r|]; simplify_eq/=. done.
  - intros u Hu. destruct (next_raises w); [done|].
    destruct (table w !! k) as [r|]; simpl in *; [|done].
    case_decide; simplify_eq/=. done.
Qed.

(** ** Writing a balance *)

Section UpdateBalance.
Implicit Types (w : world) (t : gmap Z row) (r : row).

Lemma update_balance_table k b w :
  table (update_balance k b w).2 =
    if next_raises w then table w
    else match table w !! k with
         | Some r => <[k := set_balance b r]> (table w)
         | None => table w
         end.
Proof.
  rewrite update_balance_run. destruct (next_raises w); [done|].
  by destruct (table w !! k).
Qed.

Lemma update_balance_result k b w :
  (update_balance k b w).1 =
    negb (next_raises w) && bool_decide (is_Some (table w !! k)).
Proof.
  rewrite update_balance_run. destruct (next_raises w); [done|].
  by destruct (table w !! k) as [r|].
Qed.

End UpdateBalance.

(** A balance written is the balance read.  After [update_balance] returns
    [True] for an identifier, the row of that identifier holds the new
    balance with its name and email as before, every other row is as
    before, no row was added or removed, and a lookup or a balance read
    that the store answers returns the new balance. *)
Theorem update_balance_then_read k b w w' :
  update_balance k b w = (true, w') →
  ∃ r, table w !! k = Some r ∧
       table w' !! k = Some (Row (name r) (email r) (Some b)) ∧
       (∀ j, j ≠ k → table w' !! j = table w !! j) ∧
       dom (table w') = dom (table w) ∧
       (next_raises w' = false →
          (get_user_balance k (name r) w').1 = Some b ∧
          (get_user_by_id k w').1 = Some (k, Row (name r) (email r) (Some b))).
Proof.
  intros (r & Hk & Ht & _ & _)%update_balance_true. exists r.
  split; [done|]. rewrite Ht. split; [by rewrite lookup_insert_eq|].
  split; [by intros j Hj; rewrite lookup_insert_ne|].
  split; [by apply dom_insert_lookup_L|].
  intros Hf. rewrite get_user_balance_run, get_user_by_id_and_name_run,
    get_user_by_id_run, Hf, Ht, lookup_insert_eq. simpl.
  by rewrite decide_True.
Qed.

(** 60 written to A's row of the scenario reads back as 60. *)
Lemma update_balance_then_read_scenario :
  (get_user_balance 1 "A" (update_balance 1 60 (db scenario)).2).1 = Some 60.
Proof.
  destruct (update_balance_then_read 1 60 (db scenario)
              (update_balance 1 60 (db scenario)).2 eq_refl)
    as (r & Hr & _ & _ & _ & Hread).
  injection Hr as <-. exact (proj1 (Hread eq_refl)).
Defined.

(** [update_balance] returns [True] exactly when the store answers and a
    row has the identifier.  A write that returns [False] has changed
    nothing, and once a write has succeeded, writing the same balance
    again changes nothing more, whatever the second call returns. *)
Theorem update_balance_succeeds_iff k b w :
  ((update_balance k b w).1 = true ↔
     next_raises w = false ∧ is_Some (table w !! k)) ∧
  ((update_balance k b w).1 = false →
     table (update_balance k b w).2 = table w) ∧
  ((update_balance k b w).1 = true →
     table (update_balance k b (update_balance k b w).2).2
       = table (update_balance k b w).2).
Proof.
  split; [|split].
  - rewrite update_balance_result, andb_true_iff, negb_true_iff,
      bool_decide_eq_true. done.
  - rewrite update_balance_result, update_balance_table.
    destruct (next_raises w); [done|].
    by destruct (table w !! k) as [r|].
  - intros Hok.
    destruct (update_balance k b w) as [ok w'] eqn:Hrun. simpl in Hok.
    subst ok. apply update_balance_true in Hrun as (r & Hk & Ht & _ & _).
    simpl. rewrite update_balance_table. destruct (next_raises w'); [done|].
    rewrite Ht, lookup_insert_eq, insert_insert_eq. done.
Qed.

(** ** Opening and closing accounts, and what follows *)

Section Accounts.
Implicit Types (m : manager) (w : world) (t : gmap Z row).

(** What a successful [create_account] of the repository has done. *)
Lemma db_create_account_true nm em b w :
  (DatabaseManager.create_account nm em b w).1.1.1 = true →
  ¬ email_taken em (table w) ∧
  DatabaseManager.create_account nm em b w =
    (true, created_message nm (next_id (table w)), Some (next_id (table w)),
     {| table := <[next_id (table w) := Row nm em (Some b)]> (table w);
        faults := tail (tail (faults w));
        log := log w ++ [Select [EqEmail em]; Insert nm em b] |}).
Proof.
  unfold DatabaseManager.create_account, bind, ret.
  destruct (next_raises w) eqn:Hf.
  { destruct (execute_raised (Select [EqEmail em]) w Hf) as [e ->]. done. }
  rewrite execute_answered by done. simpl.
  destruct (map_to_list (filter (satisfies [EqEmail em]) (table w)))
    as [|u l] eqn:Hsel; [|done].
  apply select_by_email_empty in Hsel.
  match goal with
  | |- context [execute ?q ?w'] =>
      destruct (next_raises w') eqn:Hf';
      [destruct (execute_raised q w' Hf') as [e ->]
      |rewrite (execute_answered q w' Hf')]
  end; simpl; [done|].
  intros _. split; [done|]. by rewrite <- app_assoc.
Qed.

(** What a successful [create_account] of the service has checked and
    done. *)
Lemma create_account_true nm em b m :
  (create_account nm em b m).1.1.1 = true →
  nm ≠ EmptyString ∧ em ≠ EmptyString ∧ contains "@" em = true ∧ 0 ≤ b ∧
  ¬ email_taken em (table (db m)) ∧
  create_account nm em b m =
    (true, created_message nm (next_id (table (db m))),
     Some (next_id (table (db m))),
     with_db
       {| table := <[next_id (table (db m)) := Row nm em (Some b)]>
                     (table (db m));
          faults := tail (tail (faults (db m)));
          log := log (db m) ++ [Select [EqEmail em]; Insert nm em b] |} m).
Proof.
  intros Hok.
  destruct (decide (nm = EmptyString ∨ em = EmptyString ∨
                    contains "@" em = false ∨ b < 0)) as [Hrej|Hval].
  { destruct (create_account_rejected nm em b m Hrej) as (_ & Hf & _).
    congruence. }
  assert (nm ≠ EmptyString) as Hn by (intros ->; apply Hval; by left).
  assert (em ≠ EmptyString) as He by (intros ->; apply Hval; right; by left).
  assert (contains "@" em = true) as Hat
    by (destruct (contains "@" em); [done | destruct Hval; tauto]).
  assert (0 ≤ b) as Hb by (destruct (Z_lt_le_dec b 0); [tauto | done]).
  revert Hok. rewrite create_account_validated, call_db_run by done. simpl.
  intros [Hfree ->]%db_create_account_true. done.
Qed.

(** What a successful [delete_account] of the service has checked and
    done. *)
Lemma delete_account_true uid cn m :
  (delete_account uid cn m).1.1 = true →
  uid ≠ 0 ∧
  ∃ r, table (db m) !! uid = Some r ∧ name r = cn ∧
       table (db (delete_account uid cn m).2) = delete uid (table (db m)) ∧
       transactions (delete_account uid cn m).2 = transactions m.
Proof.
  destruct (decide (uid = 0)) as [->|Hu]; [done|].
  rewrite delete_account_looked_up by done.
  destruct (get_user_by_id uid (db m)) as [[u|] w1] eqn:Hl; [|done].
  apply get_user_by_id_Some in Hl as Hrow. destruct Hrow as [_ Hrow].
  apply get_user_by_id_world in Hl as ->.
  destruct (get_name u =? cn)%string eqn:Hn; [|done].
  apply String.eqb_eq in Hn. rewrite call_db_run; simpl.
  destruct (db_delete_account_run uid (issued (Select [EqId uid]) (db m)))
    as [[Hf _]|(r & Hk & Hr & Ht)].
  - rewrite Hf. done.
  - intros _. split; [done|]. exists r. simpl in Hk.
    assert (r = u.2) as -> by congruence. by rewrite Ht.
Qed.

(** A transfer that succeeds has found both parties and enough money. *)
Lemma transfer_funds_true sid sn rid a m :
  (transfer_funds sid sn rid a m).1.1 = true →
  0 < a ∧
  ∃ s r, table (db m) !! sid = Some s ∧ name s = sn ∧
         table (db m) !! rid = Some r ∧
         balance s = Some (default 0 (balance s)) ∧
         a ≤ default 0 (balance s).
Proof.
  destruct (transfer_funds_run sid sn rid a m)
    as [Ha | w1 Ha Hs | s w1 w2 Ha Hs Hr | s r w1 w2 Ha Hs Hr Hb
       | s r w1 w2 w3 Ha Hs Hr Hb Hw1
       | s r w1 w2 w3 w4 restored w5 Ha Hs Hr Hb Hw1 Hw2 Hw3
       | s r w1 w2 w3 w4 Ha Hs Hr Hb Hw1 Hw2]; simpl; try done.
  intros _. split; [done|].
  destruct (sender_balance_on_record _ _ _ _ _ _ Hs Ha Hb) as [_ Hbal].
  apply get_user_by_id_and_name_Some in Hs as Hrow.
  destruct Hrow as (_ & Hrow & Hname).
  apply get_user_by_id_and_name_world in Hs as ->.
  apply get_user_by_id_Some in Hr as [_ Hrrow]. simpl in Hrrow.
  exists s.2, r.2. unfold get_balance in *. by rewrite Hbal.
Qed.

End Accounts.

(** An account just opened is there to be used.  When [create_account]
    of the service succeeds, the identifier it returns is not 0 and was
    not in use, the email was not taken, the table has gained exactly the
    row with the name, email and balance given, and the ledger is
    untouched; a balance enquiry for the new identifier and name that the
    store answers reports the initial balance; and opening a second
    account with the same email now fails. *)
Theorem create_account_then_check nm em b m :
  (create_account nm em b m).1.1.1 = true →
  let m' := (create_account nm em b m).2 in
  ∃ k, (create_account nm em b m).1.2 = Some k ∧
       k ≠ 0 ∧
       table (db m) !! k = None ∧
       ¬ email_taken em (table (db m)) ∧
       table (db m') = <[k := Row nm em (Some b)]> (table (db m)) ∧
       transactions m' = transactions m ∧
       (next_raises (db m') = false →
          (check_balance k nm m').1 = (true, balance_message nm b, Some b)) ∧
       (∀ nm' b', (create_account nm' em b' m').1.1.1 = false).
Proof.
  intros (Hn & He & Hat & Hb & Hfree & Hrun)%create_account_true m'.
  subst m'. rewrite Hrun. simpl.
  exists (next_id (table (db m))).
  pose proof (next_id_pos (table (db m))) as Hpos.
  pose proof (next_id_fresh (table (db m))) as Hfresh.
  split; [done|]. split; [lia|]. split; [done|]. split; [done|].
  split; [done|]. split; [done|]. split.
  - intros Hf. rewrite check_balance_looked_up by (done || lia). simpl.
    rewrite (get_user_by_id_and_name_present _ _ _ (Row nm em (Some b)));
      [done| |done|done].
    simpl. apply lookup_insert_eq.
  - intros nm' b'.
    match goal with |- (create_account _ _ _ ?m1).1.1.1 = false =>
      destruct (decide (nm' = EmptyString ∨ em = EmptyString ∨
                        contains "@" em = false ∨ b' < 0)) as [Hrej|Hval];
      [by destruct (create_account_rejected nm' em b' m1 Hrej) as (_ & ? & _)|];
      rewrite create_account_validated, call_db_run;
      [|intros ->; apply Hval; by left|done|done
       |destruct (Z_lt_le_dec b' 0); [tauto | done]]
    end.
    simpl. apply db_create_account_taken. simpl.
    exists (next_id (table (db m))), (Row nm em (Some b)).
    split; [apply lookup_insert_eq | done].
Qed.

(** C opens an account with 5 on the scenario's table, and the enquiry
    shows 5. *)
Lemma create_account_then_check_scenario :
  (check_balance 3 "C" (create_account "C" "c@bank.example" 5 scenario).2).1
    = (true, "Balance for C: $5", Some 5).
Proof.
  destruct (create_account_then_check "C" "c@bank.example" 5 scenario eq_refl)
    as (k & Hk & _ & _ & _ & _ & _ & Hcheck & _).
  injection Hk as <-. exact (Hcheck eq_refl).
Defined.

(** An account closed is gone.  When [delete_account] of the service
    succeeds, the row of that identifier is no longer in the table and
    every other row is as before; from then on a balance enquiry for the
    identifier fails, a second deletion fails as not found, and no
    transfer from or to the identifier succeeds. *)
Theorem delete_account_then_gone uid cn m :
  (delete_account uid cn m).1.1 = true →
  let m' := (delete_account uid cn m).2 in
  table (db m') !! uid = None ∧
  (∀ j, j ≠ uid → table (db m') !! j = table (db m) !! j) ∧
  (∀ nm, (check_balance uid nm m').1.1.1 = false) ∧
  (∀ cn', (delete_account uid cn' m').1 = (false, no_user_message uid)) ∧
  (∀ sn rid a, (transfer_funds uid sn rid a m').1.1 = false) ∧
  (∀ sid sn a, (transfer_funds sid sn uid a m').1.1 = false).
Proof.
  intros (Hu & r & Hk & Hn & Ht & _)%delete_account_true m'. subst m'.
  assert (table (db (delete_account uid cn m).2) !! uid = None) as Hgone
    by (rewrite Ht; apply lookup_delete_eq).
  split; [done|]. split; [by intros j Hj; rewrite Ht, lookup_delete_ne|].
  split; [|split; [|split]].
  - intros nm. destruct (decide (nm = EmptyString)) as [->|Hnm].
    + rewrite check_balance_required; [done | by right].
    + rewrite check_balance_looked_up by done. simpl.
      rewrite get_user_by_id_and_name_absent; [done|]. intros x Hx. congruence.
  - intros cn'. rewrite delete_account_looked_up by done.
    rewrite get_user_by_id_run, Hgone. by destruct (next_raises _).
  - intros sn rid a.
    destruct (transfer_funds uid sn rid a (delete_account uid cn m).2).1.1
      eqn:Hok; [|done].
    apply transfer_funds_true in Hok as (_ & s & x & Hs & _). congruence.
  - intros sid sn a.
    destruct (transfer_funds sid sn uid a (delete_account uid cn m).2).1.1
      eqn:Hok; [|done].
    apply transfer_funds_true in Hok as (_ & s & x & _ & _ & Hx & _). congruence.
Qed.

(** B's account is closed; an enquiry for B then fails. *)
Lemma delete_account_then_gone_scenario :
  (check_balance 2 "B" (delete_account 2 "B" scenario).2).1.1.1 = false.
Proof.
  exact (proj1 (proj2 (proj2
    (delete_account_then_gone 2 "B" scenario eq_refl))) "B").
Defined.

(** Opening an account and closing it again, under the name it was opened
    with, gives back the table as it was, when the store answers the three
    calls of the deletion. *)
Theorem create_then_delete_restores nm em b m :
  (create_account nm em b m).1.1.1 = true →
  answers 3 (db (create_account nm em b m).2) →
  ∃ k, (create_account nm em b m).1.2 = Some k ∧
       (delete_account k nm (create_account nm em b m).2).1.1 = true ∧
       table (db (delete_account k nm (create_account nm em b m).2).2)
         = table (db m).
Proof.
  intros (Hn & He & Hat & Hb & Hfree & Hrun)%create_account_true.
  rewrite Hrun. simpl. intros Hans.
  exists (next_id (table (db m))).
  pose proof (next_id_pos (table (db m))) as Hpos.
  pose proof (next_id_fresh (table (db m))) as Hfresh.
  split; [done|].
  rewrite delete_account_looked_up by lia.
  rewrite get_user_by_id_run. simpl. rewrite (answers_next 2 _ Hans).
  rewrite lookup_insert_eq. simpl. unfold get_name. simpl.
  rewrite String.eqb_refl, call_db_run. simpl.
  rewrite (db_delete_account_deletes _ _ (Row nm em (Some b))).
  - simpl. split; [done|]. by apply delete_insert_id.
  - simpl. apply lookup_insert_eq.
  - by apply (answers_tail 2
      {| table := <[next_id (table (db m)) := Row nm em (Some b)]> (table (db m));
         faults := tail (tail (faults (db m)));
         log := log (db m) ++ [Select [EqEmail em]; Insert nm em b] |}).
Qed.

(** C's account is opened on the scenario's table and closed again. *)
Lemma create_then_delete_restores_scenario :
  table (db (delete_account 3 "C"
               (create_account "C" "c@bank.example" 5 scenario).2).2)
    = scenario_table.
Proof.
  destruct (create_then_delete_restores "C" "c@bank.example" 5 scenario eq_refl)
    as (k & Hk & _ & Ht).
  - constructor.
  - injection Hk as <-. exact Ht.
Defined.

(** ** What a transfer touches *)

Section TransferFrame.
Implicit Types (m : manager) (w : world) (t : gmap Z row).

Lemma only_balances_refl sid rid t : only_balances_of sid rid t t.
Proof. by split. Qed.

Lemma only_balances_trans sid rid t1 t2 t3 :
  only_balances_of sid rid t1 t2 → only_balances_of sid rid t2 t3 →
  only_balances_of sid rid t1 t3.
Proof.
  intros [H1 H2] [H3 H4]. split.
  - intros k. by rewrite H3.
  - intros k Hs Hr. by rewrite H4, H2.
Qed.

Lemma update_balance_only_balances k b w ok w' sid rid :
  update_balance k b w = (ok, w') →
  k = sid ∨ k = rid →
  only_balances_of sid rid (table w) (table w').
Proof.
  intros Hrun Hk.
  assert (table w' = table (update_balance k b w).2) as -> by by rewrite Hrun.
  rewrite update_balance_table. destruct (next_raises w); [by split|].
  destruct (table w !! k) as [r|] eqn:Hr; [|by split]. split.
  - intros j. unfold holder. destruct (decide (j = k)) as [->|Hj].
    + by rewrite lookup_insert_eq, Hr.
    + by rewrite lookup_insert_ne.
  - intros j Hs Hd. rewrite lookup_insert_ne; [done|]. by destruct Hk as [->| ->].
Qed.

Lemma holder_dom t t' : (∀ k, holder k t' = holder k t) → dom t' = dom t.
Proof.
  intros H. apply set_eq. intros k. rewrite !elem_of_dom.
  specialize (H k). unfold holder in H.
  destruct (t' !! k), (t !! k); simplify_eq/=; split; by intros [? ?].
Qed.

(** The table after the compensating write. *)
Lemma rolled_back_table sid sn rid a m s r w1 w2 w3 w4 restored w5 :
  0 < a →
  get_user_by_id_and_name sid sn (db m) = (Some s, w1) →
  get_user_by_id rid w1 = (Some r, w2) →
  a ≤ get_balance s 0 →
  update_balance sid (get_balance s 0 - a) w2 = (true, w3) →
  update_balance rid (get_balance r 0 + a) w3 = (false, w4) →
  update_balance sid (get_balance s 0) w4 = (restored, w5) →
  table (db m) !! sid = Some s.2 ∧
  balance s.2 = Some (get_balance s 0) ∧
  table w5 =
    if restored then table (db m)
    else <[sid := set_balance (get_balance s 0 - a) s.2]> (table (db m)).
Proof.
  intros Ha Hs Hr Hb Hw1 Hw2 Hw3.
  destruct (sender_balance_on_record _ _ _ _ _ _ Hs Ha Hb) as [_ Hbal].
  apply get_user_by_id_and_name_Some in Hs as Hrow.
  destruct Hrow as (_ & Hrow & _).
  apply get_user_by_id_and_name_world in Hs as ->.
  apply get_user_by_id_world in Hr as ->.
  apply update_balance_true in Hw1 as (x & Hx & Ht3 & _ & _).
  apply update_balance_false in Hw2 as ->.
  simpl in Hx. assert (x = s.2) as -> by congruence.
  split; [done|]. split; [done|]. destruct restored.
  - apply update_balance_true in Hw3 as (y & Hy & Ht5 & _ & _).
    simpl in Hy, Ht5. rewrite Ht3, lookup_insert_eq in Hy. injection Hy as <-.
    rewrite Ht5, Ht3; simpl. rewrite insert_insert_eq, set_balance_twice.
    rewrite set_balance_same by done. by apply insert_id.
  - apply update_balance_false in Hw3 as ->. simpl. by rewrite Ht3.
Qed.

(** The table after the two writes of a completed transfer. *)
Lemma completed_table sid sn rid a m s r w1 w2 w3 w4 :
  0 < a →
  get_user_by_id_and_name sid sn (db m) = (Some s, w1) →
  get_user_by_id rid w1 = (Some r, w2) →
  a ≤ get_balance s 0 →
  update_balance sid (get_balance s 0 - a) w2 = (true, w3) →
  update_balance rid (get_balance r 0 + a) w3 = (true, w4) →
  table (db m) !! sid = Some s.2 ∧
  table (db m) !! rid = Some r.2 ∧
  balance s.2 = Some (get_balance s 0) ∧
  ∃ y, <[sid := set_balance (get_balance s 0 - a) s.2]> (table (db m)) !! rid
         = Some y ∧
       table w4 =
         <[rid := set_balance (get_balance r 0 + a) y]>
           (<[sid := set_balance (get_balance s 0 - a) s.2]> (table (db m))).
Proof.
  intros Ha Hs Hr Hb Hw1 Hw2.
  destruct (sender_balance_on_record _ _ _ _ _ _ Hs Ha Hb) as [_ Hbal].
  apply get_user_by_id_and_name_Some in Hs as Hrow.
  destruct Hrow as (_ & Hrow & _).
  apply get_user_by_id_and_name_world in Hs as ->.
  apply get_user_by_id_Some in Hr as Hrrow. destruct Hrrow as [_ Hrrow].
  apply get_user_by_id_world in Hr as ->.
  apply update_balance_true in Hw1 as (x & Hx & Ht3 & _ & _).
  apply update_balance_true in Hw2 as (y & Hy & Ht4 & _ & _).
  simpl in Hx, Hrrow, Ht3. assert (x = s.2) as -> by congruence.
  split; [done|]. split; [done|]. split; [done|]. exists y.
  rewrite Ht3 in Hy. split; [done|]. by rewrite Ht4, Ht3.
Qed.

Lemma transfer_funds_only_balances sid sn rid a m :
  only_balances_of sid rid (table (db m))
    (table (db (transfer_funds sid sn rid a m).2)).
Proof.
  destruct (transfer_funds_run sid sn rid a m)
    as [Ha | w1 Ha Hs | s w1 w2 Ha Hs Hr | s r w1 w2 Ha Hs Hr Hb
       | s r w1 w2 w3 Ha Hs Hr Hb Hw1
       | s r w1 w2 w3 w4 restored w5 Ha Hs Hr Hb Hw1 Hw2 Hw3
       | s r w1 w2 w3 w4 Ha Hs Hr Hb Hw1 Hw2]; simpl;
    [apply only_balances_refl|..].
  all: assert (table w1 = table (db m)) as Ht1
         by (apply get_user_by_id_and_name_world in Hs as ->; done).
  all: try (rewrite Ht1; apply only_balances_refl).
  all: assert (table w2 = table (db m)) as Ht2
         by (pose proof Hr as Hw; apply get_user_by_id_world in Hw as ->; done).
  all: try (rewrite Ht2; apply only_balances_refl).
  all: rewrite <- Ht2.
  all: pose proof (update_balance_only_balances _ _ _ _ _ sid rid Hw1
                     ltac:(by left)) as F1; try done.
  all: pose proof (update_balance_only_balances _ _ _ _ _ sid rid Hw2
                     ltac:(by right)) as F2.
  - pose proof (update_balance_only_balances _ _ _ _ _ sid rid Hw3
                  ltac:(by left)) as F3.
    eauto using only_balances_trans.
  - eauto using only_balances_trans.
Qed.

Lemma emails_unique_holder t t' :
  (∀ k, holder k t' = holder k t) → emails_unique t → emails_unique t'.
Proof.
  intros H Hu j k x y Hj Hk He.
  pose proof (H j) as Hhj. pose proof (H k) as Hhk. unfold holder in *.
  rewrite Hj in Hhj. rewrite Hk in Hhk.
  destruct (t !! j) as [x'|] eqn:Hj'; [|done].
  destruct (t !! k) as [y'|] eqn:Hk'; [|done].
  simplify_eq/=. apply (Hu j k x' y'); congruence.
Qed.

Lemma create_account_false nm em b m :
  (create_account nm em b m).1.1.1 = false →
  table (db (create_account nm em b m).2) = table (db m).
Proof.
  intros Hfail.
  destruct (decide (nm = EmptyString ∨ em = EmptyString ∨
                    contains "@" em = false ∨ b < 0)) as [Hrej|Hok].
  - by destruct (create_account_rejected nm em b m Hrej) as (-> & _).
  - revert Hfail. rewrite create_account_validated, call_db_run; simpl.
    + apply db_create_account_failed.
    + intros ->. apply Hok. by left.
    + intros ->. apply Hok. right. by left.
    + destruct (contains "@" em) eqn:E; [done|]. destruct Hok. tauto.
    + destruct (Z_lt_le_dec b 0); [|done]. destruct Hok. tauto.
Qed.

Lemma step_emails_unique o m :
  emails_unique (table (db m)) → emails_unique (table (db (step o m))).
Proof.
  intros Hu. destruct o as [uid nm | sid sn rid a | nm em b | uid cn | ]; simpl.
  - destruct (check_balance_state uid nm m) as (w' & -> & Hw). simpl.
    by rewrite Hw.
  - eapply emails_unique_holder; [|done].
    apply (transfer_funds_only_balances sid sn rid a m).
  - destruct (create_account nm em b m).1.1.1 eqn:Hok.
    + apply create_account_true in Hok as (_ & _ & _ & _ & Hfree & ->). simpl.
      pose proof (next_id_fresh (table (db m))) as Hfresh.
      intros j k x y Hj Hk He.
      apply lookup_insert_Some in Hj as [[<- <-]|[Hj1 Hj]];
        apply lookup_insert_Some in Hk as [[<- <-]|[Hk1 Hk]]; simpl in *.
      * done.
      * destruct Hfree. by exists k, y.
      * destruct Hfree. by exists j, x.
      * by apply (Hu j k x y).
    + by rewrite create_account_false.
  - destruct (delete_account_state uid cn m) as (w' & -> & [Hw|Hw]);
      simpl; rewrite Hw; [done|].
    intros j k x y [_ Hj]%lookup_delete_Some [_ Hk]%lookup_delete_Some.
    by apply Hu.
  - done.
Qed.

End TransferFrame.

(** [transfer_funds] changes balances and nothing else, on every path:
    no row is added or removed, every row keeps its name and its email,
    and every row other than the sender's and the receiver's is exactly as
    it was. *)
Theorem transfer_funds_touches_two_balances sid sn rid a m :
  dom (table (db (transfer_funds sid sn rid a m).2)) = dom (table (db m)) ∧
  (∀ k, holder k (table (db (transfer_funds sid sn rid a m).2))
          = holder k (table (db m))) ∧
  (∀ k, k ≠ sid → k ≠ rid →
        table (db (transfer_funds sid sn rid a m).2) !! k
          = table (db m) !! k).
Proof.
  destruct (transfer_funds_only_balances sid sn rid a m) as [H1 H2].
  split; [by apply holder_dom | by split].
Qed.

(** Emails stay unique.  From a table in which no two rows carry the same
    email, every operation of the service, and every sequence of them,
    leaves a table in which no two rows carry the same email, whatever the
    store answers. *)
Theorem operations_keep_emails_unique os m :
  emails_unique (table (db m)) →
  emails_unique (table (db (steps os m))).
Proof.
  revert m. induction os as [|o os IH]; intros m Hu; [done|].
  simpl. apply IH. by apply step_emails_unique.
Qed.

(** The emails of the scenario differ. *)
Lemma scenario_emails_unique : emails_unique scenario_table.
Proof.
  intros j k x y Hj Hk He. unfold scenario_table in *.
  repeat (apply lookup_insert_Some in Hj as [[<- <-]|[? Hj]]);
    repeat (apply lookup_insert_Some in Hk as [[<- <-]|[? Hk]]);
    try done; by rewrite ?lookup_empty in *.
Qed.

(** A new account, a second one refused for its email, a transfer and a
    closed account on the scenario's table. *)
Lemma operations_keep_emails_unique_scenario :
  emails_unique
    (table (db (steps [CreateAccount "C" "c@bank.example" 5;
                       CreateAccount "D" "a@bank.example" 7;
                       TransferFunds 1 "A" 3 40;
                       DeleteAccount 2 "B"] scenario))).
Proof.
  exact (operations_keep_emails_unique _ scenario scenario_emails_unique).
Defined.

(** ** Money in, money out *)

Section Conservation.
Implicit Types (m : manager) (w : world) (t : gmap Z row).

Lemma transfer_funds_failed_table sid sn rid a m :
  (transfer_funds sid sn rid a m).1.1 = false →
  table (db (transfer_funds sid sn rid a m).2) = table (db m) ∨
  ((transfer_funds sid sn rid a m).1.2 = rollback_message ∧
   0 < a ∧
   ∃ s b, table (db m) !! sid = Some s ∧ name s = sn ∧
          balance s = Some b ∧ a ≤ b ∧
          table (db (transfer_funds sid sn rid a m).2)
            = <[sid := set_balance (b - a) s]> (table (db m))).
Proof.
  destruct (transfer_funds_run sid sn rid a m)
    as [Ha | w1 Ha Hs | s w1 w2 Ha Hs Hr | s r w1 w2 Ha Hs Hr Hb
       | s r w1 w2 w3 Ha Hs Hr Hb Hw1
       | s r w1 w2 w3 w4 restored w5 Ha Hs Hr Hb Hw1 Hw2 Hw3
       | s r w1 w2 w3 w4 Ha Hs Hr Hb Hw1 Hw2]; simpl; [by left|..|done].
  all: intros _.
  all: assert (table w1 = table (db m)) as Ht1
         by (apply get_user_by_id_and_name_world in Hs as ->; done).
  all: try (by left).
  all: assert (table w2 = table (db m)) as Ht2
         by (pose proof Hr as Hw; apply get_user_by_id_world in Hw as ->; done).
  all: try (by left).
  - left. apply update_balance_false in Hw1 as ->. done.
  - destruct (rolled_back_table _ _ _ _ _ _ _ _ _ _ _ _ _
                Ha Hs Hr Hb Hw1 Hw2 Hw3) as (Hrow & Hbal & Ht5).
    destruct restored; [by left|]. right.
    apply get_user_by_id_and_name_Some in Hs as (_ & _ & Hname).
    split; [done|]. split; [done|]. by exists s.2, (get_balance s 0).
Qed.

End Conservation.

(** A transfer that fails leaves the ledger as it was, and the table too,
    with one exception:
    when the receiver-side write failed and the compensating write failed
    too, the call returns the rollback message and the only change is the
    sender's balance, [a] lower than before. *)
Theorem transfer_funds_failure_leaves_table sid sn rid a m :
  (transfer_funds sid sn rid a m).1.1 = false →
  transactions (transfer_funds sid sn rid a m).2 = transactions m ∧
  (table (db (transfer_funds sid sn rid a m).2) = table (db m) ∨
   ((transfer_funds sid sn rid a m).1.2 = rollback_message ∧
    0 < a ∧
    ∃ s b, table (db m) !! sid = Some s ∧ name s = sn ∧
           balance s = Some b ∧ a ≤ b ∧
           table (db (transfer_funds sid sn rid a m).2)
             = <[sid := set_balance (b - a) s]> (table (db m)))).
Proof.
  intros Hfail. split.
  - destruct (transfer_funds_ledger sid sn rid a m) as [[_ H]|[Hok _]];
      [done | congruence].
  - by apply transfer_funds_failed_table.
Qed.

(** A transfer between two different accounts never creates money.  When
    it succeeds, and whenever it fails, the sum of the balances in the
    table is the sum before, except when the receiver-side write and the
    compensating write both failed: then the call has returned the
    rollback message and the sum is [a] lower. *)
Theorem transfer_funds_conserves_money sid sn rid a m :
  sid ≠ rid →
  let out := transfer_funds sid sn rid a m in
  (out.1.1 = true →
     total_balance (table (db out.2)) = total_balance (table (db m))) ∧
  (out.1.1 = false →
     total_balance (table (db out.2)) = total_balance (table (db m)) ∨
     (out.1.2 = rollback_message ∧
      total_balance (table (db out.2)) = total_balance (table (db m)) - a)).
Proof.
  intros Hne out. subst out. split.
  - destruct (transfer_funds_run sid sn rid a m)
      as [Ha | w1 Ha Hs | s w1 w2 Ha Hs Hr | s r w1 w2 Ha Hs Hr Hb
         | s r w1 w2 w3 Ha Hs Hr Hb Hw1
         | s r w1 w2 w3 w4 restored w5 Ha Hs Hr Hb Hw1 Hw2 Hw3
         | s r w1 w2 w3 w4 Ha Hs Hr Hb Hw1 Hw2]; simpl; try done.
    intros _.
    destruct (completed_table _ _ _ _ _ _ _ _ _ _ _ Ha Hs Hr Hb Hw1 Hw2)
      as (Hrow & Hrrow & Hbal & y & Hy & ->).
    rewrite lookup_insert_ne in Hy by done.
    assert (y = r.2) as -> by congruence.
    rewrite (total_balance_set _ rid r.2); [|by rewrite lookup_insert_ne].
    rewrite (total_balance_set _ sid s.2) by done.
    rewrite Hbal. unfold get_balance. simpl. lia.
  - intros Hfail.
    destruct (transfer_funds_failed_table sid sn rid a m Hfail)
      as [->|(Hmsg & Ha & s & b & Hrow & _ & Hbal & Hb & ->)]; [by left|].
    right. split; [done|].
    rewrite (total_balance_set _ sid s) by done. rewrite Hbal. simpl. lia.
Qed.

(** 40 from A to B on the scenario: 100 before, 100 after. *)
Lemma transfer_funds_conserves_money_scenario :
  total_balance (table (db (transfer_funds 1 "A" 2 40 scenario).2))
    = total_balance scenario_table.
Proof.
  refine (proj1 (transfer_funds_conserves_money 1 "A" 2 40 scenario _) _);
    (discriminate || reflexivity).
Defined.

(** A store that raises on the receiver-side write and on the
    compensating write: 40 leave A and arrive nowhere. *)
Lemma transfer_funds_failure_leaves_table_lost :
  (transfer_funds 1 "A" 2 40 both_writes_raise).1
    = (false, "Failed to update receiver balance. Transaction rolled back") ∧
  stored_balance 1 (table (db (transfer_funds 1 "A" 2 40 both_writes_raise).2))
    = Some 60 ∧
  stored_balance 2 (table (db (transfer_funds 1 "A" 2 40 both_writes_raise).2))
    = Some 0.
Proof.
  destruct (transfer_funds_failure_leaves_table 1 "A" 2 40 both_writes_raise
              eq_refl) as [_ [H|(_ & _ & s & b & Hs & _ & Hb & _ & ->)]].
  - vm_compute in H. discriminate.
  - injection Hs as <-. injection Hb as <-. repeat split.
Defined.

(** ** An enquiry, then a transfer *)

Section Composition.
Implicit Types (m : manager) (w : world) (t : gmap Z row).

Lemma answers_issued n q w : answers (S n) w → answers n (issued q w).
Proof. apply answers_tail. Qed.

(** With both rows in place, enough money and a store that answers the
    four calls, a transfer goes through. *)
Lemma transfer_funds_succeeds sid sn rid a m s r :
  table (db m) !! sid = Some s → name s = sn →
  table (db m) !! rid = Some r →
  0 < a → a ≤ default 0 (balance s) →
  answers 4 (db m) →
  (transfer_funds sid sn rid a m).1.1 = true.
Proof.
  intros Hs Hn Hr Ha Hb Hans.
  set (q1 := Select [EqId sid; EqName sn]).
  set (q2 := Select [EqId rid]).
  set (w1 := issued q1 (db m)).
  set (w2 := issued q2 w1).
  pose proof (answers_issued 3 q1 _ Hans) as A1. fold w1 in A1.
  pose proof (answers_issued 2 q2 _ A1) as A2. fold w2 in A2.
  assert (get_user_by_id_and_name sid sn (db m) = (Some (sid, s), w1)) as H1.
  { rewrite get_user_by_id_and_name_run, (answers_next 3 _ Hans), Hs. simpl.
    by rewrite decide_True. }
  assert (get_user_by_id rid w1 = (Some (rid, r), w2)) as H2.
  { rewrite get_user_by_id_run, (answers_next 2 _ A1).
    change (table w1) with (table (db m)). by rewrite Hr. }
  set (x := get_balance (sid, s) 0 - a).
  set (w3 := {| table := <[sid := set_balance x s]> (table w2);
                faults := tail (faults w2);
                log := log w2 ++ [Update x [EqId sid]] |}).
  assert (update_balance sid x w2 = (true, w3)) as H3.
  { rewrite update_balance_run, (answers_next 1 _ A2).
    change (table w2) with (table (db m)). by rewrite Hs. }
  pose proof (answers_tail 1 w2 (table w3) (log w3) A2) as A3.
  assert (is_Some (table w3 !! rid)) as [y Hy].
  { change (table w3) with (<[sid := set_balance x s]> (table (db m))).
    destruct (decide (sid = rid)) as [->|Hne].
    - rewrite lookup_insert_eq. by eexists.
    - rewrite lookup_insert_ne by done. by eexists. }
  assert (∃ w4, update_balance rid (get_balance (rid, r) 0 + a) w3 = (true, w4))
    as [w4 H4].
  { rewrite update_balance_run.
    change (next_raises w3) with (next_raises
      {| table := table w3; faults := tail (faults w2); log := log w3 |}).
    rewrite (answers_next 0 _ A3), Hy. by eexists. }
  by rewrite (transfer_funds_completes sid sn rid a m (sid, s) (rid, r)
                w1 w2 w3 w4 Ha H1 H2 Hb H3 H4).
Qed.

Lemma check_balance_true uid nm m :
  (check_balance uid nm m).1.1.1 = true →
  uid ≠ 0 ∧ nm ≠ EmptyString ∧
  ∃ r, table (db m) !! uid = Some r ∧ name r = nm ∧
       (check_balance uid nm m).1 =
         (true, balance_message nm (default 0 (balance r)),
          Some (default 0 (balance r))) ∧
       (check_balance uid nm m).2 =
         with_db (issued (Select [EqId uid; EqName nm]) (db m)) m.
Proof.
  destruct (decide (uid = 0 ∨ nm = EmptyString)) as [H|H].
  { by rewrite check_balance_required. }
  rewrite check_balance_looked_up by tauto.
  destruct (get_user_by_id_and_name uid nm (db m)) as [[u|] w1] eqn:Hl;
    simpl; [|done].
  intros _. apply get_user_by_id_and_name_Some in Hl as Hrow.
  destruct Hrow as (_ & Hrow & Hname).
  apply get_user_by_id_and_name_world in Hl as ->.
  split; [tauto|]. split; [tauto|]. by exists u.2.
Qed.

End Composition.

(** What an enquiry reports decides the transfer that follows.  After
    [check_balance] has succeeded with balance [b] for an identifier and a
    name, a transfer from that identifier and name of more than [b] never
    succeeds, whatever the store answers; and a transfer of a positive
    amount up to [b] to an identifier that has a row succeeds when the
    store answers its four calls. *)
Theorem check_balance_then_transfer uid nm m rid a :
  (check_balance uid nm m).1.1.1 = true →
  let m1 := (check_balance uid nm m).2 in
  ∃ b, (check_balance uid nm m).1.2 = Some b ∧
       (b < a → (transfer_funds uid nm rid a m1).1.1 = false) ∧
       (0 < a → a ≤ b → is_Some (table (db m1) !! rid) → answers 4 (db m1) →
          (transfer_funds uid nm rid a m1).1.1 = true).
Proof.
  intros (Hu & Hn & r & Hrow & Hname & Hres & Hst)%check_balance_true m1.
  subst m1. rewrite Hres, Hst. simpl.
  exists (default 0 (balance r)). split; [done|]. split.
  - intros Hlt.
    match goal with |- ?f = false => destruct f eqn:Hok; [|done] end.
    apply transfer_funds_true in Hok as (_ & s & x & Hs & _ & _ & _ & Hle).
    simpl in Hs. assert (s = r) as -> by congruence. lia.
  - intros Ha Hb [y Hy] Hans.
    by apply (transfer_funds_succeeds uid nm rid a _ r y).
Qed.

(** A's enquiry on the scenario shows 100: 999 are then refused and 40 go
    through. *)
Lemma check_balance_then_transfer_scenario :
  (transfer_funds 1 "A" 2 999 (check_balance 1 "A" scenario).2).1.1 = false ∧
  (transfer_funds 1 "A" 2 40 (check_balance 1 "A" scenario).2).1.1 = true.
Proof.
  split.
  - destruct (check_balance_then_transfer 1 "A" scenario 2 999 eq_refl)
      as (b & Hb & Hlow & _).
    injection Hb as <-. exact (Hlow eq_refl).
  - destruct (check_balance_then_transfer 1 "A" scenario 2 40 eq_refl)
      as (b & Hb & _ & Hok).
    injection Hb as <-. apply Hok.
    + reflexivity.
    + discriminate.
    + by eexists.
    + constructor.
Defined.

(** ** The requests an operation issues *)

Section Requests.
Implicit Types (m : manager) (w : world) (qs : list query).

Lemma db_create_account_log nm em b w :
  ∃ qs, log (DatabaseManager.create_account nm em b w).2 = log w ++ qs ∧
        qs `prefix_of` [Select [EqEmail em]; Insert nm em b].
Proof.
  unfold DatabaseManager.create_account, bind, ret.
  destruct (next_raises w) eqn:Hf.
  { destruct (execute_raised (Select [EqEmail em]) w Hf) as [e ->]. simpl.
    eexists; split; [done|]. by exists [Insert nm em b]. }
  rewrite execute_answered by done. simpl.
  destruct (map_to_list (filter (satisfies [EqEmail em]) (table w)))
    as [|u l] eqn:Hsel.
  2: { simpl. eexists; split; [done|]. by exists [Insert nm em b]. }
  match goal with
  | |- context [execute ?q ?w'] =>
      destruct (next_raises w') eqn:Hf';
      [destruct (execute_raised q w' Hf') as [e ->]
      |rewrite (execute_answered q w' Hf')]
  end; simpl; rewrite <- app_assoc; by eexists.
Qed.

Lemma db_delete_account_log uid w :
  ∃ qs, log (DatabaseManager.delete_account uid w).2 = log w ++ qs ∧
        qs `prefix_of` [Select [EqId uid]; Delete [EqId uid]].
Proof.
  unfold DatabaseManager.delete_account, bind, ret.
  rewrite get_user_by_id_run; simpl.
  destruct (next_raises w);
    [simpl; eexists; split; [done|]; by exists [Delete [EqId uid]]|].
  destruct (table w !! uid) as [r|]; simpl;
    [|eexists; split; [done|]; by exists [Delete [EqId uid]]].
  match goal with
  | |- context [execute ?q ?w'] =>
      destruct (next_raises w') eqn:Hf';
      [destruct (execute_raised q w' Hf') as [e ->]
      |rewrite (execute_answered q w' Hf')]
  end; simpl; rewrite <- app_assoc; by eexists.
Qed.

Lemma lookup_by_name_log k n w o w' :
  get_user_by_id_and_name k n w = (o, w') →
  log w' = log w ++ [Select [EqId k; EqName n]].
Proof. by intros ->%get_user_by_id_and_name_world. Qed.

Lemma lookup_by_id_log k w o w' :
  get_user_by_id k w = (o, w') → log w' = log w ++ [Select [EqId k]].
Proof. by intros ->%get_user_by_id_world. Qed.

Lemma update_balance_log_of k b w ok w' :
  update_balance k b w = (ok, w') → log w' = log w ++ [Update b [EqId k]].
Proof.
  intros H. pose proof (update_balance_log k b w) as L. by rewrite H in L.
Qed.

Lemma transfer_funds_log sid sn rid a m :
  ∃ b rb qs,
    log (db (transfer_funds sid sn rid a m).2) = log (db m) ++ qs ∧
    qs `prefix_of` transfer_requests sid sn rid a b rb ∧
    ((transfer_funds sid sn rid a m).1.1 = true →
       qs = take 4 (transfer_requests sid sn rid a b rb)) ∧
    (a ≤ 0 → qs = []).
Proof.
  destruct (transfer_funds_run sid sn rid a m)
    as [Ha | w1 Ha Hs | s w1 w2 Ha Hs Hr | s r w1 w2 Ha Hs Hr Hb
       | s r w1 w2 w3 Ha Hs Hr Hb Hw1
       | s r w1 w2 w3 w4 restored w5 Ha Hs Hr Hb Hw1 Hw2 Hw3
       | s r w1 w2 w3 w4 Ha Hs Hr Hb Hw1 Hw2]; simpl.
  - exists 0, 0, []. rewrite app_nil_r. split; [done|].
    split; [apply prefix_nil | done].
  - apply lookup_by_name_log in Hs.
    exists 0, 0, [Select [EqId sid; EqName sn]]. split; [done|].
    split; [by eexists|]. split; [done | lia].
  - apply lookup_by_name_log in Hs. apply lookup_by_id_log in Hr.
    exists 0, 0, [Select [EqId sid; EqName sn]; Select [EqId rid]].
    rewrite Hr, Hs, <- app_assoc. split; [done|].
    split; [by eexists|]. split; [done | lia].
  - apply lookup_by_name_log in Hs. apply lookup_by_id_log in Hr.
    exists 0, 0, [Select [EqId sid; EqName sn]; Select [EqId rid]].
    rewrite Hr, Hs, <- app_assoc. split; [done|].
    split; [by eexists|]. split; [done | lia].
  - apply lookup_by_name_log in Hs. apply lookup_by_id_log in Hr.
    apply update_balance_log_of in Hw1.
    exists (get_balance s 0), (get_balance r 0). eexists.
    rewrite Hw1, Hr, Hs, <- !app_assoc. simpl.
    split; [done|]. split; [by eexists|]. split; [done | lia].
  - apply lookup_by_name_log in Hs. apply lookup_by_id_log in Hr.
    apply update_balance_log_of in Hw1, Hw2, Hw3.
    exists (get_balance s 0), (get_balance r 0). eexists.
    rewrite Hw3, Hw2, Hw1, Hr, Hs, <- !app_assoc. simpl.
    split; [done|]. split; [done|]. split; [done | lia].
  - apply lookup_by_name_log in Hs. apply lookup_by_id_log in Hr.
    apply update_balance_log_of in Hw1, Hw2.
    exists (get_balance s 0), (get_balance r 0). eexists.
    rewrite Hw2, Hw1, Hr, Hs, <- !app_assoc. simpl.
    split; [done|]. split; [by eexists|]. split; [done | lia].
Qed.

End Requests.

(** Every operation of the service issues its requests in a fixed order
    and nothing else: an enquiry at most one select by identifier and
    name; a transfer at most the two lookups, the two writes and the
    compensating write, exactly the first four when it succeeds and none
    when the amount is not positive; opening an account at most the select
    by email and the insert; closing one at most two selects by identifier
    and the delete; reading the history none.  So no balance is written
    before both parties were looked up, and no row is deleted or inserted
    by a transfer or an enquiry. *)
Theorem operations_issue_their_requests o m :
  ∃ b rb qs,
    log (db (step o m)) = log (db m) ++ qs ∧
    qs `prefix_of` op_requests o b rb ∧
    (∀ sid sn rid a, o = TransferFunds sid sn rid a →
       ((transfer_funds sid sn rid a m).1.1 = true →
          qs = take 4 (transfer_requests sid sn rid a b rb)) ∧
       (a ≤ 0 → qs = [])).
Proof.
  destruct o as [uid nm | sid sn rid a | nm em b0 | uid cn | ]; simpl.
  - exists 0, 0.
    destruct (decide (uid = 0 ∨ nm = EmptyString)) as [H|H].
    + rewrite check_balance_required by done. exists []. simpl.
      rewrite app_nil_r. split; [done|]. split; [apply prefix_nil | done].
    + rewrite check_balance_looked_up by tauto. simpl.
      rewrite get_user_by_id_and_name_run. simpl.
      eexists; split; [done|]. split; [done | done].
  - destruct (transfer_funds_log sid sn rid a m)
      as (b & rb & qs & Hlog & Hpre & Hok & Hneg).
    exists b, rb, qs. split; [done|]. split; [done|].
    intros ? ? ? ? [= <- <- <- <-]. by split.
  - exists 0, 0.
    destruct (decide (nm = EmptyString ∨ em = EmptyString ∨
                      contains "@" em = false ∨ b0 < 0)) as [Hrej|Hok].
    + destruct (create_account_rejected nm em b0 m Hrej) as (-> & _).
      exists []. rewrite app_nil_r. split; [done|].
      split; [apply prefix_nil | done].
    + rewrite create_account_validated, call_db_run; simpl.
      * destruct (db_create_account_log nm em b0 (db m)) as (qs & Hlog & Hpre).
        by exists qs.
      * intros ->. apply Hok. by left.
      * intros ->. apply Hok. right. by left.
      * destruct (contains "@" em) eqn:E; [done|]. destruct Hok. tauto.
      * destruct (Z_lt_le_dec b0 0); [|done]. destruct Hok. tauto.
  - exists 0, 0.
    destruct (decide (uid = 0)) as [->|Hu].
    { exists []. simpl. rewrite app_nil_r. split; [done|].
      split; [apply prefix_nil | done]. }
    rewrite delete_account_looked_up by done.
    rewrite get_user_by_id_run.
    destruct (next_raises (db m)).
    { simpl. eexists; split; [done|]. split; [|done].
      by exists [Select [EqId uid]; Delete [EqId uid]]. }
    destruct (table (db m) !! uid) as [r|]; simpl.
    2: { eexists; split; [done|]. split; [|done].
         by exists [Select [EqId uid]; Delete [EqId uid]]. }
    destruct (get_name (uid, r) =? cn)%string.
    2: { simpl. eexists; split; [done|]. split; [|done].
         by exists [Select [EqId uid]; Delete [EqId uid]]. }
    rewrite call_db_run; simpl.
    destruct (db_delete_account_log uid (issued (Select [EqId uid]) (db m)))
      as (qs & Hlog & Hpre).
    exists (Select [EqId uid] :: qs). rewrite Hlog. simpl.
    rewrite <- app_assoc. split; [done|]. split; [|done].
    by apply prefix_cons.
  - exists 0, 0, []. rewrite app_nil_r. split; [done|].
    split; [apply prefix_nil | done].
Qed.

(** * The console front end *)

Import Main.

Section ConsoleFacts.
Variable int_of : string → option Z.
Variables strip lower : string → string.
Variable ljust : string → nat → string.
Implicit Types (σ : session) (m : manager).

Lemma reads_forward_ret {A} (a : A) : reads_forward (io_ret a).
Proof. intros σ. simpl. reflexivity. Qed.

Lemma reads_forward_raise {A} e : reads_forward (@raise A e).
Proof. intros σ. simpl. reflexivity. Qed.

Lemma reads_forward_print s : reads_forward (print s).
Proof. intros σ. simpl. reflexivity. Qed.

Lemma reads_forward_ledger : reads_forward ledger.
Proof. intros σ. simpl. reflexivity. Qed.

Lemma reads_forward_input p : reads_forward (input p).
Proof.
  intros σ. unfold input. destruct (stdin σ) as [|l rest] eqn:E; simpl.
  - by rewrite E.
  - by apply suffix_cons_r.
Qed.

Lemma reads_forward_call {A} (c : M manager A) : reads_forward (call c).
Proof.
  intros σ. unfold call. destruct (c (transfer_manager σ)). simpl. reflexivity.
Qed.

Lemma reads_forward_int s : reads_forward (int int_of s).
Proof. intros σ. unfold int. destruct (int_of s); simpl; reflexivity. Qed.

Lemma reads_forward_bind {A B} (c : IO A) (k : A → IO B) :
  reads_forward c → (∀ a, reads_forward (k a)) → reads_forward (io_bind c k).
Proof.
  intros Hc Hk σ. unfold io_bind. specialize (Hc σ).
  destruct (c σ) as [[e|a] σ']; simpl in *; [done|].
  etrans; [apply Hk | done].
Qed.

Lemma reads_forward_for_each {A} (xs : list A) (body : A → IO unit) :
  (∀ x, reads_forward (body x)) → reads_forward (for_each xs body).
Proof.
  intros Hb. induction xs as [|x xs IH]; simpl.
  - apply reads_forward_ret.
  - apply reads_forward_bind; [apply Hb | by intros _].
Qed.

Lemma reads_forward_guarded body msg σ :
  reads_forward body → stdin (guarded body msg σ) `suffix_of` stdin σ.
Proof.
  intros Hb. unfold guarded. specialize (Hb σ).
  by destruct (body σ) as [[[]|a] σ'].
Qed.

Lemma reads_forward_details x : reads_forward (print_transaction_details x).
Proof.
  unfold print_transaction_details.
  repeat (apply reads_forward_bind; [apply reads_forward_print | intros _]).
  apply reads_forward_print.
Qed.

Ltac reads_forward :=
  repeat
    lazymatch goal with
    | |- reads_forward (io_bind _ _) => apply reads_forward_bind; [|intros ?]
    | |- reads_forward (print _) => apply reads_forward_print
    | |- reads_forward (input _) => apply reads_forward_input
    | |- reads_forward (int _ _) => apply reads_forward_int
    | |- reads_forward (call _) => apply reads_forward_call
    | |- reads_forward ledger => apply reads_forward_ledger
    | |- reads_forward (io_ret _) => apply reads_forward_ret
    | |- reads_forward (print_transaction_details _) =>
        apply reads_forward_details
    | |- reads_forward (for_each _ _) =>
        apply reads_forward_for_each; intros ?
    | |- reads_forward (if ?b then _ else _) => destruct b
    | |- reads_forward (match ?x with _ => _ end) => destruct x
    | |- reads_forward (let _ := _ in _) => cbv zeta
    end.

Lemma check_balance_option_forward σ :
  stdin (check_balance_option int_of strip σ) `suffix_of` stdin σ.
Proof. apply reads_forward_guarded. reads_forward. Qed.

Lemma transfer_funds_option_forward σ :
  stdin (transfer_funds_option int_of strip σ) `suffix_of` stdin σ.
Proof. apply reads_forward_guarded. reads_forward. Qed.

Lemma create_account_option_forward σ :
  stdin (create_account_option int_of strip σ) `suffix_of` stdin σ.
Proof. apply reads_forward_guarded. reads_forward. Qed.

Lemma delete_account_option_forward σ :
  stdin (delete_account_option int_of strip lower σ) `suffix_of` stdin σ.
Proof. apply reads_forward_guarded. reads_forward. Qed.

Lemma view_all_users_option_forward σ :
  stdin (view_all_users_option ljust σ) `suffix_of` stdin σ.
Proof.
  unfold view_all_users_option.
  match goal with |- stdin (?c σ).2 `suffix_of` _ =>
    assert (reads_forward c) as H; [|apply H] end.
  reads_forward.
Qed.

Lemma view_transaction_history_option_forward σ :
  stdin (view_transaction_history_option σ) `suffix_of` stdin σ.
Proof.
  unfold view_transaction_history_option.
  match goal with |- stdin (?c σ).2 `suffix_of` _ =>
    assert (reads_forward c) as H; [|apply H] end.
  reads_forward.
Qed.

Lemma display_menu_forward : reads_forward display_menu.
Proof. unfold display_menu. reads_forward. Qed.

#[local] Arguments check_balance : simpl never.
#[local] Arguments transfer_funds : simpl never.
#[local] Arguments create_account : simpl never.
#[local] Arguments delete_account : simpl never.
#[local] Arguments get_all_users : simpl never.
#[local] Arguments times : simpl never.
#[local] Arguments print_transaction_details : simpl never.

(** The menu is printed without reading a line or calling the service. *)
Lemma display_menu_run σ :
  ∃ out, display_menu σ =
           (inr tt, {| transfer_manager := transfer_manager σ;
                       stdin := stdin σ;
                       stdout := stdout σ ++ out |}).
Proof.
  unfold display_menu, io_bind, print, write. simpl.
  rewrite <- !app_assoc. by eexists.
Qed.

Lemma main_loop_S fuel σ :
  main_loop int_of strip lower ljust (S fuel) σ =
    match (let? _ := display_menu in input "Enter your choice (1-7): ") σ with
    | (inl e, σ') => (Crashed e, σ')
    | (inr line, σ') =>
        let choice := strip line in
        if (choice =? "1")%string then
          main_loop int_of strip lower ljust fuel
            (check_balance_option int_of strip σ')
        else if (choice =? "2")%string then
          main_loop int_of strip lower ljust fuel
            (transfer_funds_option int_of strip σ')
        else if (choice =? "3")%string then
          main_loop int_of strip lower ljust fuel
            (create_account_option int_of strip σ')
        else if (choice =? "4")%string then
          main_loop int_of strip lower ljust fuel
            (delete_account_option int_of strip lower σ')
        else if (choice =? "5")%string then
          main_loop int_of strip lower ljust fuel
            (view_all_users_option ljust σ')
        else if (choice =? "6")%string then
          main_loop int_of strip lower ljust fuel
            (view_transaction_history_option σ')
        else if (choice =? "7")%string then
          (Exited,
           (print (nl +:+ "Thank you for using Bank Management System. Goodbye!")
              σ').2)
        else
          main_loop int_of strip lower ljust fuel
            (print "Invalid choice. Please enter a number between 1 and 7."
               σ').2
    end.
Proof. reflexivity. Qed.

(** One turn of the menu: the menu is printed, then a line is read. *)
Lemma menu_turn σ :
  ∃ out,
    (let? _ := display_menu in input "Enter your choice (1-7): ") σ =
      match stdin σ with
      | [] =>
          (inl EOFError,
           {| transfer_manager := transfer_manager σ; stdin := [];
              stdout := out |})
      | l :: rest =>
          (inr l,
           {| transfer_manager := transfer_manager σ; stdin := rest;
              stdout := out |})
      end.
Proof.
  unfold io_bind. destruct (display_menu_run σ) as [o ->].
  exists ((stdout σ ++ o) ++ ["Enter your choice (1-7): "]).
  unfold input, write. simpl. by destruct (stdin σ).
Qed.

(** With more fuel than lines left, the loop ends: on a line that reads
    7, or on [EOFError] at the menu prompt once every line is read. *)
Lemma main_loop_ends fuel σ :
  (length (stdin σ) < fuel)%nat →
  ((main_loop int_of strip lower ljust fuel σ).1 = Exited ∧
   ∃ l, l ∈ stdin σ ∧ strip l = "7") ∨
  ((main_loop int_of strip lower ljust fuel σ).1 = Crashed EOFError ∧
   stdin (main_loop int_of strip lower ljust fuel σ).2 = []).
Proof.
  revert σ. induction fuel as [|fuel IH]; intros σ Hlen; [lia|].
  rewrite main_loop_S. destruct (menu_turn σ) as [out ->].
  destruct (stdin σ) as [|l rest] eqn:Hin; [by right|].
  simpl in Hlen.
  assert (∀ σ', stdin σ' `suffix_of` rest →
            ((main_loop int_of strip lower ljust fuel σ').1 = Exited ∧
             ∃ l', l' ∈ l :: rest ∧ strip l' = "7") ∨
            ((main_loop int_of strip lower ljust fuel σ').1 = Crashed EOFError ∧
             stdin (main_loop int_of strip lower ljust fuel σ').2 = []))
    as Hnext.
  { intros σ' Hsuf. pose proof (suffix_length _ _ Hsuf) as Hl.
    destruct (IH σ') as [[Hex (l' & Hl' & H7)]|Hcr]; [lia| |by right].
    left. split; [done|]. exists l'. split; [|done].
    apply elem_of_cons. right.
    destruct Hsuf as [pre ->]. apply elem_of_app. by right. }
  set (σ1 := {| transfer_manager := transfer_manager σ; stdin := rest;
                stdout := out |}).
  cbv zeta.
  destruct (strip l =? "1")%string;
    [apply Hnext, (check_balance_option_forward σ1)|].
  destruct (strip l =? "2")%string;
    [apply Hnext, (transfer_funds_option_forward σ1)|].
  destruct (strip l =? "3")%string;
    [apply Hnext, (create_account_option_forward σ1)|].
  destruct (strip l =? "4")%string;
    [apply Hnext, (delete_account_option_forward σ1)|].
  destruct (strip l =? "5")%string;
    [apply Hnext, (view_all_users_option_forward σ1)|].
  destruct (strip l =? "6")%string;
    [apply Hnext, (view_transaction_history_option_forward σ1)|].
  destruct (strip l =? "7")%string eqn:H7.
  - left. split; [done|]. exists l. apply String.eqb_eq in H7.
    split; [apply elem_of_cons; by left | done].
  - apply Hnext. simpl. reflexivity.
Qed.

End ConsoleFacts.

(** The program ends on every input.  Whatever the store answers and
    whatever is typed, [main] stops in one of two ways: normally, and then
    some line typed reads 7 once stripped; or on the [EOFError] that
    [input] raises at the menu prompt, every line having been read.  The
    fuel of the loop is never used up. *)
Theorem main_ends int_of strip lower ljust w lines :
  ((main int_of strip lower ljust w lines).1 = Exited ∧
   ∃ l, l ∈ lines ∧ strip l = "7") ∨
  ((main int_of strip lower ljust w lines).1 = Crashed EOFError ∧
   stdin (main int_of strip lower ljust w lines).2 = []).
Proof.
  unfold main.
  match goal with |- context [main_loop _ _ _ _ _ ?σ0] =>
    assert (stdin σ0 = lines) as Hin by reflexivity;
    destruct (main_loop_ends int_of strip lower ljust (S (length lines)) σ0)
      as [H|H]; [rewrite Hin; lia | left | by right]
  end.
  by rewrite Hin in H.
Qed.

(** ** What the menu options do to the service *)

Section ConsoleOptions.
Variable int_of : string → option Z.
Variables strip lower : string → string.
Implicit Types (σ : session) (m : manager).

#[local] Arguments check_balance : simpl never.
#[local] Arguments transfer_funds : simpl never.
#[local] Arguments create_account : simpl never.
#[local] Arguments delete_account : simpl never.
#[local] Arguments times : simpl never.
#[local] Arguments print_transaction_details : simpl never.

Lemma print_transaction_details_run x σ :
  ∃ out, print_transaction_details x σ =
           (inr tt, {| transfer_manager := transfer_manager σ;
                       stdin := stdin σ;
                       stdout := stdout σ ++ out |}) ∧
         length out = 9%nat.
Proof.
  unfold print_transaction_details, io_bind, print, write. simpl.
  rewrite <- !app_assoc. by eexists.
Qed.

Lemma delete_account_option_cases σ :
  transfer_manager (delete_account_option int_of strip lower σ)
    = transfer_manager σ ∨
  ∃ s n c rest uid,
    stdin σ = s :: n :: c :: rest ∧
    int_of s = Some uid ∧
    lower (strip c) = "yes" ∧
    transfer_manager (delete_account_option int_of strip lower σ)
      = (delete_account uid (strip n) (transfer_manager σ)).2 ∧
    stdin (delete_account_option int_of strip lower σ) = rest.
Proof.
  unfold delete_account_option, guarded, io_bind, input, int, raise, io_ret.
  destruct (stdin σ) as [|s l1] eqn:H0; simpl; [by left|].
  destruct (int_of s) as [uid|] eqn:Hs; simpl; [|by left].
  destruct l1 as [|n l2]; simpl; [by left|].
  destruct l2 as [|c rest]; simpl; [by left|].
  destruct (lower (strip c) =? "yes")%string eqn:Hc; simpl; [|by left].
  apply String.eqb_eq in Hc. right. exists s, n, c, rest, uid.
  split; [done|]. split; [done|]. split; [done|].
  unfold call. simpl.
  destruct (delete_account uid (strip n) (transfer_manager σ))
    as [[[] msg] m']; done.
Qed.




End ConsoleOptions.

(** A deletion that fails leaves the table as it was. *)
Lemma delete_account_false uid cn m :
  (delete_account uid cn m).1.1 = false →
  table (db (delete_account uid cn m).2) = table (db m).
Proof.
  destruct (decide (uid = 0)) as [->|Hu]; [done|].
  rewrite delete_account_looked_up by done.
  destruct (get_user_by_id uid (db m)) as [[u|] w1] eqn:Hl.
  2: { apply get_user_by_id_world in Hl as ->. done. }
  apply get_user_by_id_world in Hl as ->.
  destruct (get_name u =? cn)%string; [|done].
  rewrite call_db_run; simpl.
  destruct (db_delete_account_run uid (issued (Select [EqId uid]) (db m)))
    as [[_ Ht]|(r & _ & Hr & _)]; [done|]. by rewrite Hr.
Qed.

(** No account is closed from the console without a typed yes.  The
    delete option leaves the transfer manager untouched, so that no request
    reaches the store, unless three lines were read, the first a number
    and the third reading yes once stripped and lowered; only then is
    [delete_account] called, once, with that number and the stripped
    second line.  A row leaves the table only if, besides, the stripped
    second line is the name stored in the row of that number; the ledger
    is never touched. *)
Theorem delete_account_option_needs_yes int_of strip lower σ :
  let σ' := delete_account_option int_of strip lower σ in
  (transfer_manager σ' = transfer_manager σ ∨
   ∃ s n c rest uid,
     stdin σ = s :: n :: c :: rest ∧ int_of s = Some uid ∧
     lower (strip c) = "yes" ∧
     transfer_manager σ'
       = (delete_account uid (strip n) (transfer_manager σ)).2 ∧
     stdin σ' = rest) ∧
  (table (db (transfer_manager σ')) = table (db (transfer_manager σ)) ∨
   ∃ s n c rest uid r,
     stdin σ = s :: n :: c :: rest ∧ int_of s = Some uid ∧
     lower (strip c) = "yes" ∧
     table (db (transfer_manager σ)) !! uid = Some r ∧
     name r = strip n ∧
     table (db (transfer_manager σ'))
       = delete uid (table (db (transfer_manager σ)))) ∧
  transactions (transfer_manager σ') = transactions (transfer_manager σ).
Proof.
  intros σ'. subst σ'.
  pose proof (delete_account_option_cases int_of strip lower σ) as Hcases.
  split; [done|].
  destruct Hcases as [->|(s & n & c & rest & uid & Hin & Hs & Hc & -> & _)];
    [split; [by left | done]|].
  destruct (delete_account uid (strip n) (transfer_manager σ)).1.1 eqn:Hok.
  - apply delete_account_true in Hok as (_ & r & Hr & Hn & Ht & Hl).
    split; [|done]. right. by exists s, n, c, rest, uid, r.
  - split; [left; by apply delete_account_false|].
    by destruct (delete_account_state uid (strip n) (transfer_manager σ))
      as (w' & -> & _).
Qed.

